(** * nostr-restore: a shallow embedding of [main.go] and its properties

    The service resolves an [npub] identifier to a hex public key, reads the
    archived events of that key from the [event_backup] table, fetches a
    profile from a fixed list of relays and renders an HTML page.

    Everything the program obtains from outside its own source is explicit
    here: the [database/sql] handle is a value of type [DB], the relay network
    a value of type [Net], and the four library functions the handler relies
    on ([nip19.Decode], [json.Unmarshal], [time.Format] and the URL sanitiser
    of [html/template]) are the fields of the class [GoLibs].  Calls that
    leave the process are recorded in a trace of [Effect]s.

    The first part holds the definitions: the program ([npubToHex],
    [queryEventsByPubkey], [fetchProfileFromRelays], the events template and
    [npubHandler]), a table model of the archive, a reader of HTML markup and
    a concrete set of libraries for worked examples.  The second part holds
    the properties. *)

From Stdlib Require Import String Ascii List ZArith Bool Lia.
From Stdlib Require Import Sorting.Sorted Sorting.Permutation.
From Stdlib Require Import DecimalString.
From Stdlib Require Import Relations.Relation_Definitions Classes.RelationClasses.
Import ListNotations.
Local Open Scope string_scope.
Local Open Scope Z_scope.

(** ** Go values *)

(** A Go [error] is observed only through its message. *)
Definition error : Type := string.

(** The [(value, err)] pair a Go function returns, with [err == nil] as [Ok]. *)
Inductive result (A : Type) : Type :=
| Ok (a : A)
| Err (e : error).
Arguments Ok {A} a.
Arguments Err {A} e.

Definition is_ok {A} (r : result A) : bool :=
  match r with Ok _ => true | Err _ => false end.

(** [type Event struct] *)
Record Event : Type := mkEvent {
  ID : string;
  Pubkey : string;
  CreatedAt : Z;
  Kind : Z;
  EventData : string
}.

(** [type UserProfile struct] *)
Record UserProfile : Type := mkUserProfile {
  Name : string;
  About : string;
  Picture : string;
  Nip05 : string
}.

(** [&UserProfile{}] *)
Definition emptyProfile : UserProfile := mkUserProfile "" "" "" "".

(** ** The [strings] functions the handler uses *)

Module strings.

Fixpoint HasPrefix (s prefix : string) {struct prefix} : bool :=
  match prefix with
  | EmptyString => true
  | String p prefix' =>
      match s with
      | EmptyString => false
      | String c s' => Ascii.eqb c p && HasPrefix s' prefix'
      end
  end.

(** [s[n:]] *)
Fixpoint drop (n : nat) (s : string) : string :=
  match n, s with
  | O, _ => s
  | S n', String _ s' => drop n' s'
  | S _, EmptyString => EmptyString
  end.

Definition TrimPrefix (s prefix : string) : string :=
  if HasPrefix s prefix then drop (String.length prefix) s else s.

End strings.

(** ** Libraries outside the repository *)

(** What [nip19.Decode] hands back as its [any] value: a hex string for
    [npub], [nsec] and [note], a pointer structure for the TLV entities. *)
Inductive Decoded : Type :=
| DString (hex : string)
| DPointer.

Class GoLibs : Type := {
  (** [nip19.Decode]: prefix and value, or an error *)
  nip19_Decode : string -> result (string * Decoded);
  (** [json.Unmarshal([]byte(content), &profile)] on a zero [UserProfile] *)
  json_Unmarshal : string -> result UserProfile;
  (** [time.Unix(sec, 0).Format("2006-01-02 15:04:05")] in the local zone *)
  time_Format : Z -> string;
  (** [_html_template_urlfilter] followed by [_html_template_urlnormalizer] *)
  url_sanitize : string -> string
}.

(** ** The outside world *)

(** [nostr.Filter], with the three fields the program sets. *)
Record Filter : Type := mkFilter {
  Authors : list string;
  Kinds : list Z;
  Limit : Z
}.

(** A [nostr.Event] as it arrives on [Subscription.Events]. *)
Record RelayEvent : Type := mkRelayEvent {
  ev_Kind : Z;
  ev_Content : string
}.

(** A connected relay: [Subscribe] fails, or yields the events delivered on
    the channel before it is closed (by end of subscription or by the five
    second deadline). *)
Record Relay : Type := mkRelay {
  Subscribe : list Filter -> result (list RelayEvent)
}.

(** [nostr.RelayConnect], per URL. *)
Definition Net : Type := string -> result Relay.

(** One row of an open cursor: what [rows.Scan] gives for it. *)
Inductive FetchedRow : Type :=
| Scans (e : Event)
| ScanFails (err : error).

(** [*sql.Rows]: the rows for which [Next] returns true, and the value of
    [rows.Err()] once [Next] has returned false. *)
Record Rows : Type := mkRows {
  rows_fetched : list FetchedRow;
  rows_Err : option error
}.

(** [*sql.DB] *)
Record DB : Type := mkDB {
  db_Query : string -> list string -> result Rows
}.

(** Calls that leave the process, in the order they are made. *)
Inductive Effect : Type :=
| DbQuery (sql : string) (args : list string)
| RelayConnect (url : string)
| RelaySubscribe (url : string) (filters : list Filter)
| RelayClose (url : string)
| LogPrintf (msg : string).

(** A computation with its trace. *)
Definition IO (A : Type) : Type := (A * list Effect)%type.

Definition ret {A} (a : A) : IO A := (a, []).

Definition bind {A B} (m : IO A) (k : A -> IO B) : IO B :=
  let (a, t1) := m in
  let (b, t2) := k a in
  (b, (t1 ++ t2)%list).

Definition emit (e : Effect) : IO unit := (tt, [e]).

Notation "x <- m ;; k" := (bind m (fun x => k))
  (at level 61, m at next level, right associativity).
Notation "m ;;; k" := (bind m (fun _ => k))
  (at level 61, right associativity).

Definition value {A} (m : IO A) : A := fst m.
Definition trace {A} (m : IO A) : list Effect := snd m.

(** ** [npubToHex] *)

Section Program.
Context {libs : GoLibs}.

Definition npubToHex (npub : string) : result string :=
  if negb (strings.HasPrefix npub "npub1") then
    Err "invalid npub format: does not start with npub1"
  else
    match nip19_Decode npub with
    | Err err => Err ("invalid npub: " ++ err)
    | Ok (prefix, v) =>
        if negb (String.eqb prefix "npub") then
          Err ("not an npub: prefix is " ++ prefix)
        else
          match v with
          | DString hexPubkey => Ok hexPubkey
          | DPointer => Err "decoded npub value is not a string"
          end
    end.

(** ** [queryEventsByPubkey] *)

Definition query : string :=
  "SELECT id, pubkey, created_at, event_kind, event_data FROM event_backup WHERE pubkey = $1 ORDER BY event_kind ASC, created_at DESC".

(** The loop [for rows.Next() { ... rows.Scan ... append }].  When the rows
    run out the function returns [events, nil]; [rows.Err()] is not read. *)
Fixpoint scan_rows (fetched : list FetchedRow) (events : list Event)
  : result (list Event) :=
  match fetched with
  | [] => Ok events
  | Scans event :: rest => scan_rows rest (events ++ [event])%list
  | ScanFails err :: _ => Err err
  end.

Definition queryEventsByPubkey (db : DB) (pubkey : string)
  : IO (result (list Event)) :=
  emit (DbQuery query [pubkey]) ;;;
  match db_Query db query [pubkey] with
  | Err err => ret (Err err)
  | Ok rows => ret (scan_rows (rows_fetched rows) [])
  end.

(** ** [fetchProfileFromRelays] *)

Definition profile_filter (pubkey : string) : Filter :=
  {| Authors := [pubkey]; Kinds := [0]; Limit := 1 |}.

Definition relays : list string :=
  ["wss://relay.damus.io"; "wss://yabu.me"; "wss://nostr.compile-error.net"].

(** [for ev := range evs.Events]: the first kind-0 event whose content
    unmarshals ends the loop; after an unmarshal error the loop goes on with
    the next event of the same subscription. *)
Fixpoint read_events (events : list RelayEvent) : IO (option UserProfile) :=
  match events with
  | [] => ret None
  | ev :: rest =>
      if ev_Kind ev =? 0 then
        match json_Unmarshal (ev_Content ev) with
        | Err err =>
            emit (LogPrintf ("Failed to unmarshal profile from event: " ++ err)) ;;;
            read_events rest
        | Ok profile => ret (Some profile)
        end
      else read_events rest
  end.

(** [for _, relayURL := range relays].  The [ctx, cancel := ...] of the loop
    body declares a new [ctx] that lives until the end of the iteration, so
    every [RelayConnect] runs under the background context and every
    subscription under its own deadline. *)
Fixpoint fetch_loop (net : Net) (filter : Filter) (urls : list string)
  : IO (result UserProfile) :=
  match urls with
  | [] => ret (Ok emptyProfile)
  | relayURL :: rest =>
      emit (RelayConnect relayURL) ;;;
      match net relayURL with
      | Err err =>
          emit (LogPrintf ("Failed to connect to relay " ++ relayURL ++ ": " ++ err)) ;;;
          fetch_loop net filter rest
      | Ok relay =>
          emit (RelaySubscribe relayURL [filter]) ;;;
          match Subscribe relay [filter] with
          | Err err =>
              emit (RelayClose relayURL) ;;;
              emit (LogPrintf ("Failed to subscribe to relay " ++ relayURL ++ ": " ++ err)) ;;;
              fetch_loop net filter rest
          | Ok events =>
              found <- read_events events ;;
              match found with
              | Some profile => emit (RelayClose relayURL) ;;; ret (Ok profile)
              | None => emit (RelayClose relayURL) ;;; fetch_loop net filter rest
              end
          end
      end
  end.

Definition fetchProfileFromRelays (net : Net) (pubkey : string)
  : IO (result UserProfile) :=
  fetch_loop net (profile_filter pubkey) relays.

End Program.

(** ** The escapers of [html/template] *)

Module template.

Definition dquote : ascii := "034"%char.
Definition squote : ascii := "039"%char.

(** [htmlReplacementTable].  The table has entries below ['>'] only, so a
    byte of a multi-byte rune is never replaced and the rune-wise loop of
    [htmlReplacer] is this byte-wise one. *)
Definition htmlReplacement (c : ascii) : option string :=
  if Ascii.eqb c "000" then
    Some (String "239" (String "191" (String "189" EmptyString)))
  else if Ascii.eqb c dquote then Some "&#34;"
  else if Ascii.eqb c "&" then Some "&amp;"
  else if Ascii.eqb c squote then Some "&#39;"
  else if Ascii.eqb c "+" then Some "&#43;"
  else if Ascii.eqb c "<" then Some "&lt;"
  else if Ascii.eqb c ">" then Some "&gt;"
  else None.

Fixpoint htmlReplacer (s : string) : string :=
  match s with
  | EmptyString => EmptyString
  | String c s' =>
      match htmlReplacement c with
      | Some repl => repl ++ htmlReplacer s'
      | None => String c (htmlReplacer s')
      end
  end.

(** The template is executed by [html/template], which escapes every action
    by the context it stands in.  The actions of the events template stand
    in element content, in the body of [<title>] and in two double-quoted
    attribute values: [data-content], a plain attribute, and [src], a URL
    attribute whose pipeline ends with the attribute escaper.  On a plain
    string the escapers of these three contexts all run [htmlReplacer] with
    [htmlReplacementTable]. *)
Definition htmlEscaper (s : string) : string := htmlReplacer s.
Definition rcdataEscaper (s : string) : string := htmlReplacer s.
Definition attrEscaper (s : string) : string := htmlReplacer s.

(** [fmt.Sprint] of an [int], which is how the template prints one. *)
Definition itoa (n : Z) : string := NilZero.string_of_int (Z.to_int n).

(** Truth of a string field in [{{if}}]. *)
Definition truth (s : string) : bool := negb (String.eqb s EmptyString).

End template.

(** ** The results template

    The template is a Go raw string, so it holds no backquote; the literal
    pieces below are written with a backquote for every double quote and
    [tpl] puts the double quotes back. *)

Fixpoint tpl (s : string) : string :=
  match s with
  | EmptyString => EmptyString
  | String c s' =>
      String (if Ascii.eqb c "096" then template.dquote else c) (tpl s')
  end.

Module tmpl.

Definition page_open : string := Eval vm_compute in tpl
"
<!DOCTYPE html>
<html lang=`en`>
<head>
    <meta charset=`UTF-8`>
    <meta name=`viewport` content=`width=device-width, initial-scale=1.0`>
    <title>Events for ".

Definition after_title : string := Eval vm_compute in tpl
"</title>
    <link rel=`stylesheet` href=`/static/style.css`>
    <script src=`https://cdn.jsdelivr.net/npm/sweetalert2@11`></script>
    <script src=`/static/script.js`></script>
</head>
<body>
    <div class=`container`>
        <div class=`back-link`>
            <a href=`/`>‚Üê Back to Home</a>
        </div>

        <div class=`profile-header` style=`display: flex; align-items: center; margin-bottom: 30px; padding-bottom: 20px; border-bottom: 1px solid #eee;`>
            ".

Definition img_open : string := Eval vm_compute in tpl
"
            <img src=`".

Definition img_close : string := Eval vm_compute in tpl
"` alt=`Profile Picture` class=`profile-pic` style=`width: 60px; height: 60px; border-radius: 50%; object-fit: cover; margin-right: 15px;`>
            ".

Definition h1_open : string := Eval vm_compute in tpl
"
            <div>
                <h1>".

Definition default_name : string := Eval vm_compute in tpl
"Nostr User".

Definition npub_label : string := Eval vm_compute in tpl
"</h1>
                <p><strong>npub:</strong> ".

Definition hex_label : string := Eval vm_compute in tpl
"</p>
                <p><strong>Hex Pubkey:</strong> ".

Definition after_hex : string := Eval vm_compute in tpl
"</p>
                ".

Definition nip05_open : string := Eval vm_compute in tpl
"<p><strong>Verification:</strong> ".

Definition p_close : string := Eval vm_compute in tpl
"</p>".

Definition about_open : string := Eval vm_compute in tpl
"<p><strong>About:</strong> ".

Definition total_label : string := Eval vm_compute in tpl
"
                <p><strong>Total Events Found:</strong> ".

Definition events_open : string := Eval vm_compute in tpl
"</p>
            </div>
        </div>

        <div class=`events-container`>
            ".

Definition gap12 : string := Eval vm_compute in tpl
"
            ".

Definition gap16 : string := Eval vm_compute in tpl
"
                ".

Definition gap20 : string := Eval vm_compute in tpl
"
                    ".

Definition div_close : string := Eval vm_compute in tpl
"</div>".

Definition group_open : string := Eval vm_compute in tpl
"
                    <div class=`kind-group`>
                        <h2 class=`kind-header`>Kind ".

Definition group_head_close : string := Eval vm_compute in tpl
"</h2>
                    ".

Definition event_open : string := Eval vm_compute in tpl
"
                <div class=`event`>
                    <div class=`event-header`>
                        <div class=`event-header-left`>
                            <span class=`event-timestamp`>".

Definition actions_open : string := Eval vm_compute in tpl
"</span>
                        </div>
                        <div class=`event-actions`>
                            ".

Definition restore_button : string := Eval vm_compute in tpl
"<button class=`restore-btn` onclick=`showRestoreConfirmation(this)`>Restore</button>".

Definition copy_and_content_open : string := Eval vm_compute in tpl
"
                            <button class=`copy-btn` onclick=`copyEventData(this)`>Copy</button>
                        </div>
                    </div>
                    <detail>
                        <div class=`event-content` data-content=`".

Definition pre_open : string := Eval vm_compute in tpl
"`><pre style=`white-space: pre-wrap; word-break: break-all;`>".

Definition pre_close_id_open : string := Eval vm_compute in tpl
"</pre></div>
                    </detail>
                    <div class=`event-id`>".

Definition event_close : string := Eval vm_compute in tpl
"</div>
                </div>
            ".

Definition no_events : string := Eval vm_compute in tpl
"
                <p>No events found for this pubkey.</p>
            ".

Definition page_close : string := Eval vm_compute in tpl
"
        </div>
        <footer>
            <p>Nostr Event Restore Service &copy; 2025</p>
        </footer>
    </div>
</body>
</html>
".

End tmpl.

(** ** Rendering and the handler *)

(** [*http.Request], with the parsed query of [r.URL.Query()]. *)
Record Request : Type := mkRequest {
  URL_Path : string;
  URL_Query : list (string * string)
}.

(** What the handler writes to the [http.ResponseWriter]. *)
Record Response : Type := mkResponse {
  Status : Z;
  Body : string
}.

Definition StatusOK : Z := 200.
Definition StatusBadRequest : Z := 400.
Definition StatusInternalServerError : Z := 500.

(** [http.Error]: the status and the message followed by a newline. *)
Definition http_Error (msg : string) (code : Z) : Response :=
  {| Status := code; Body := msg ++ String "010" EmptyString |}.

(** [url.Values.Get]: the first value of the key, or the empty string. *)
Fixpoint Query_Get (q : list (string * string)) (key : string) : string :=
  match q with
  | [] => EmptyString
  | (k, v) :: q' => if String.eqb k key then v else Query_Get q' key
  end.

Section Handler.
Context {libs : GoLibs}.
Import template.

(** [func (e Event) GetFormattedDate() string] *)
Definition GetFormattedDate (e : Event) : string := time_Format (CreatedAt e).

(** The [{{if ne .Kind $currentKind}} ... {{end}}] block of the range body. *)
Definition group_header (currentKind : Z) (e : Event) : string :=
  if negb (Kind e =? currentKind) then
    tmpl.gap20
    ++ (if negb (currentKind =? -1) then tmpl.div_close else EmptyString)
    ++ tmpl.group_open ++ htmlEscaper (itoa (Kind e)) ++ tmpl.group_head_close
    ++ tmpl.gap16
  else EmptyString.

(** The [<div class="event">] element of the range body. *)
Definition event_div (e : Event) : string :=
  tmpl.event_open ++ htmlEscaper (GetFormattedDate e)
  ++ tmpl.actions_open
  ++ (if Kind e =? 3 then tmpl.restore_button else EmptyString)
  ++ tmpl.copy_and_content_open ++ attrEscaper (EventData e)
  ++ tmpl.pre_open ++ htmlEscaper (EventData e)
  ++ tmpl.pre_close_id_open ++ htmlEscaper (ID e)
  ++ tmpl.event_close.

(** [{{range .Events}}] over a non-empty slice, threading [$currentKind]. *)
Fixpoint range_events (currentKind : Z) (events : list Event) : string :=
  match events with
  | [] => EmptyString
  | e :: rest =>
      tmpl.gap16 ++ group_header currentKind e ++ event_div e
      ++ range_events
           (if negb (Kind e =? currentKind) then Kind e else currentKind) rest
  end.

Definition profile_header (npub hexPubkey : string) (profile : UserProfile)
  : string :=
  (if truth (Picture profile) then
     tmpl.img_open ++ attrEscaper (url_sanitize (Picture profile))
     ++ tmpl.img_close
   else EmptyString)
  ++ tmpl.h1_open
  ++ (if truth (Name profile) then htmlEscaper (Name profile)
      else tmpl.default_name)
  ++ tmpl.npub_label ++ htmlEscaper npub
  ++ tmpl.hex_label ++ htmlEscaper hexPubkey
  ++ tmpl.after_hex
  ++ (if truth (Nip05 profile) then
        tmpl.nip05_open ++ htmlEscaper (Nip05 profile) ++ tmpl.p_close
      else EmptyString)
  ++ tmpl.gap16
  ++ (if truth (About profile) then
        tmpl.about_open ++ htmlEscaper (About profile) ++ tmpl.p_close
      else EmptyString).

Definition events_container (events : list Event) : string :=
  tmpl.gap12
  ++ match events with
     | [] => tmpl.no_events
     | _ :: _ => range_events (-1) events
     end
  ++ tmpl.gap12
  ++ (if 0 <? Z.of_nat (List.length events) then tmpl.div_close
      else EmptyString).

(** [t.Execute(w, data)] for the events template. *)
Definition render_events (npub hexPubkey : string) (events : list Event)
    (profile : UserProfile) : string :=
  tmpl.page_open ++ rcdataEscaper (Name profile) ++ tmpl.after_title
  ++ profile_header npub hexPubkey profile
  ++ tmpl.total_label ++ htmlEscaper (itoa (Z.of_nat (List.length events)))
  ++ tmpl.events_open
  ++ events_container events
  ++ tmpl.page_close.

(** The identifier the handler works on. *)
Definition request_npub (r : Request) : string :=
  let npub := strings.TrimPrefix (URL_Path r) "/npub/" in
  if String.eqb npub EmptyString then Query_Get (URL_Query r) "q" else npub.

(** The handler returned by [npubHandler(db)].  The template is a constant
    that parses, and the response writer is taken to accept what is written
    to it, so the two [http.Error] calls after [Parse] and [Execute] are not
    part of the model. *)
Definition npubHandler (db : DB) (net : Net) (r : Request) : IO Response :=
  let npub := request_npub r in
  match npubToHex npub with
  | Err _ => ret (http_Error "Invalid npub format" StatusBadRequest)
  | Ok hexPubkey =>
      queried <- queryEventsByPubkey db hexPubkey ;;
      match queried with
      | Err err =>
          ret (http_Error ("Database error: " ++ err) StatusInternalServerError)
      | Ok events =>
          fetched <- fetchProfileFromRelays net hexPubkey ;;
          profile <- match fetched with
                     | Err err =>
                         emit (LogPrintf ("Error fetching profile for "
                                          ++ hexPubkey ++ ": " ++ err)) ;;;
                         ret emptyProfile
                     | Ok profile => ret profile
                     end ;;
          ret {| Status := StatusOK;
                 Body := render_events npub hexPubkey events profile |}
      end
  end.

End Handler.

(** ** The archive as a PostgreSQL table *)

(** The server is handed the text of a statement and reads it.  [sql] holds
    the part of the language [query] is written in: a column list, one table,
    an equality test of a column against a numbered parameter, and an
    ordering.  What the rows are, and in which order they come, is decided by
    that text alone. *)
Module sql.

Inductive Value : Type :=
| Text (s : string)
| Int (n : Z).

Inductive Direction : Type :=
| ASC
| DESC.

Record Statement : Type := {
  columns : list string;
  from : string;
  where_column : string;
  where_param : nat;
  order_by : list (string * Direction)
}.

Definition and_then {A B} (o : option A) (k : A -> option B) : option B :=
  match o with
  | Some a => k a
  | None => None
  end.

(** *** Words *)

Definition between (lo hi : nat) (c : ascii) : bool :=
  ((lo <=? nat_of_ascii c) && (nat_of_ascii c <=? hi))%nat.

Definition is_blank (c : ascii) : bool :=
  Ascii.eqb c " " || between 9 13 c.

Definition is_digit (c : ascii) : bool := between 48 57 c.

Definition is_upper (c : ascii) : bool := between 65 90 c.

Definition is_lower (c : ascii) : bool := between 97 122 c.

(** A comma and an equals sign are words of their own. *)
Definition is_punct (c : ascii) : bool :=
  Ascii.eqb c "," || Ascii.eqb c "=".

Definition flush (word : string) : list string :=
  if String.eqb word "" then [] else [word].

Fixpoint words (word : string) (s : string) : list string :=
  match s with
  | EmptyString => flush word
  | String c rest =>
      if is_blank c then (flush word ++ words "" rest)%list
      else if is_punct c then
        (flush word ++ String c "" :: words "" rest)%list
      else words (word ++ String c "") rest
  end.

Definition upper (c : ascii) : ascii :=
  if is_lower c then ascii_of_nat (nat_of_ascii c - 32) else c.

Definition lower (c : ascii) : ascii :=
  if is_upper c then ascii_of_nat (nat_of_ascii c + 32) else c.

Fixpoint map_chars (f : ascii -> ascii) (s : string) : string :=
  match s with
  | EmptyString => EmptyString
  | String c rest => String (f c) (map_chars f rest)
  end.

Fixpoint all_chars (p : ascii -> bool) (s : string) : bool :=
  match s with
  | EmptyString => true
  | String c rest => p c && all_chars p rest
  end.

(** Key words are recognised in either case. *)
Definition keyword (kw word : string) : bool :=
  String.eqb (map_chars upper word) kw.

Definition reserved (word : string) : bool :=
  existsb (fun kw => keyword kw word)
    ["SELECT"; "FROM"; "WHERE"; "ORDER"; "BY"; "ASC"; "DESC"].

(** An unquoted name, folded to lower case. *)
Definition identifier (word : string) : option string :=
  match word with
  | EmptyString => None
  | String c _ =>
      if negb (is_digit c)
         && all_chars
              (fun c => is_lower c || is_upper c || is_digit c
                        || Ascii.eqb c "_") word
         && negb (reserved word)
      then Some (map_chars lower word)
      else None
  end.

Fixpoint digits (acc : nat) (s : string) : option nat :=
  match s with
  | EmptyString => Some acc
  | String c rest =>
      if is_digit c
      then digits (10 * acc + (nat_of_ascii c - 48))%nat rest
      else None
  end.

Definition number (s : string) : option nat :=
  if String.eqb s "" then None else digits 0 s.

(** [$1], [$2], ... *)
Definition parameter (word : string) : option nat :=
  match word with
  | String c index => if Ascii.eqb c "$" then number index else None
  | EmptyString => None
  end.

(** A decimal numeral with an optional sign. *)
Definition integer (s : string) : option Z :=
  match s with
  | String c rest =>
      if Ascii.eqb c "-"
      then option_map (fun n => - Z.of_nat n) (number rest)
      else option_map Z.of_nat (number s)
  | EmptyString => None
  end.

(** *** Grammar *)

Definition expect (kw : string) (ws : list string) : option (list string) :=
  match ws with
  | w :: rest => if keyword kw w then Some rest else None
  | [] => None
  end.

Definition name (ws : list string) : option (string * list string) :=
  match ws with
  | w :: rest => option_map (fun n => (n, rest)) (identifier w)
  | [] => None
  end.

(** [name, name, ...], with the words that follow the list. *)
Fixpoint column_list (ws : list string)
  : option (list string * list string) :=
  match ws with
  | [] => None
  | w :: rest =>
      and_then (identifier w) (fun n =>
        match rest with
        | sep :: rest' =>
            if String.eqb sep ","
            then option_map (fun '(ns, more) => (n :: ns, more))
                   (column_list rest')
            else Some ([n], rest)
        | [] => Some ([n], [])
        end)
  end.

Definition direction (word : string) : option Direction :=
  if keyword "ASC" word then Some ASC
  else if keyword "DESC" word then Some DESC
  else None.

(** [name [ASC | DESC], ...] up to the end of the statement; a key without a
    direction ascends. *)
Fixpoint sort_list (ws : list string) : option (list (string * Direction)) :=
  match ws with
  | [] => None
  | w :: rest =>
      and_then (identifier w) (fun n =>
        match rest with
        | [] => Some [(n, ASC)]
        | w' :: rest' =>
            if String.eqb w' ","
            then option_map (cons (n, ASC)) (sort_list rest')
            else
              and_then (direction w') (fun d =>
                match rest' with
                | [] => Some [(n, d)]
                | sep :: rest'' =>
                    if String.eqb sep ","
                    then option_map (cons (n, d)) (sort_list rest'')
                    else None
                end)
        end)
  end.

(** [SELECT columns FROM table WHERE column = $n ORDER BY keys] *)
Definition statement (ws : list string) : option Statement :=
  and_then (expect "SELECT" ws) (fun ws =>
  and_then (column_list ws) (fun '(cols, ws) =>
  and_then (expect "FROM" ws) (fun ws =>
  and_then (name ws) (fun '(table, ws) =>
  and_then (expect "WHERE" ws) (fun ws =>
  and_then (name ws) (fun '(col, ws) =>
    match ws with
    | eq :: p :: ws =>
        if String.eqb eq "=" then
          and_then (parameter p) (fun n =>
          and_then (expect "ORDER" ws) (fun ws =>
          and_then (expect "BY" ws) (fun ws =>
          and_then (sort_list ws) (fun keys =>
            Some {| columns := cols; from := table; where_column := col;
                    where_param := n; order_by := keys |}))))
        else None
    | _ => None
    end)))))).

Definition parse (text : string) : option Statement :=
  statement (words "" text).

(** *** The table *)

Inductive ColumnType : Type :=
| TEXT
| BIGINT.

Record Column : Type := {
  type_of : ColumnType;
  get : Event -> Value
}.

(** The columns of [event_backup], typed as the fields they are scanned
    into. *)
Definition event_backup (column : string) : option Column :=
  if String.eqb column "id" then
    Some {| type_of := TEXT; get e := Text (ID e) |}
  else if String.eqb column "pubkey" then
    Some {| type_of := TEXT; get e := Text (Pubkey e) |}
  else if String.eqb column "created_at" then
    Some {| type_of := BIGINT; get e := Int (CreatedAt e) |}
  else if String.eqb column "event_kind" then
    Some {| type_of := BIGINT; get e := Int (Kind e) |}
  else if String.eqb column "event_data" then
    Some {| type_of := TEXT; get e := Text (EventData e) |}
  else None.

Fixpoint traverse {A B} (f : A -> option B) (l : list A) : option (list B) :=
  match l with
  | [] => Some []
  | a :: rest =>
      and_then (f a) (fun b => option_map (cons b) (traverse f rest))
  end.

(** *** Evaluation *)

(** A parameter arrives as text and takes the type of the column it is
    compared with. *)
Definition input (k : ColumnType) (arg : string) : option Value :=
  match k with
  | TEXT => Some (Text arg)
  | BIGINT => option_map Int (integer arg)
  end.

Definition equal (a b : Value) : bool :=
  match a, b with
  | Text x, Text y => String.eqb x y
  | Int x, Int y => Z.eqb x y
  | _, _ => false
  end.

Definition compare (a b : Value) : comparison :=
  match a, b with
  | Int x, Int y => Z.compare x y
  | Text x, Text y => String.compare x y
  | Int _, Text _ => Lt
  | Text _, Int _ => Gt
  end.

(** [a] may come before [b]: the first key on which they differ decides, in
    its direction. *)
Fixpoint order_leb (keys : list ((Event -> Value) * Direction))
    (a b : Event) : bool :=
  match keys with
  | [] => true
  | (key, d) :: rest =>
      match
        match d with
        | ASC => compare (key a) (key b)
        | DESC => compare (key b) (key a)
        end
      with
      | Lt => true
      | Gt => false
      | Eq => order_leb rest a b
      end
  end.

Fixpoint insert {A} (leb : A -> A -> bool) (x : A) (l : list A) : list A :=
  match l with
  | [] => [x]
  | y :: rest => if leb x y then x :: l else y :: insert leb x rest
  end.

(** Insertion sort.  PostgreSQL leaves open the order of rows that the keys
    do not tell apart; here they keep their table order. *)
Fixpoint sort_by {A} (leb : A -> A -> bool) (l : list A) : list A :=
  match l with
  | [] => []
  | x :: rest => insert leb x (sort_by leb rest)
  end.

Definition select (st : Statement) (table : list Event) (args : list string)
  : result (list (list Value)) :=
  if negb (String.eqb (from st) "event_backup") then
    Err ("pq: relation " ++ from st ++ " does not exist")
  else
    match
      traverse event_backup (columns st),
      event_backup (where_column st),
      traverse
        (fun '(n, d) => option_map (fun c => (get c, d)) (event_backup n))
        (order_by st)
    with
    | Some cols, Some col, Some keys =>
        if negb (Nat.eqb (length args) (where_param st))
        then Err "pq: wrong number of parameters"
        else
          match
            and_then (nth_error args (where_param st - 1))
              (input (type_of col))
          with
          | None => Err "pq: invalid input syntax"
          | Some v =>
              Ok (map (fun e => map (fun c => get c e) cols)
                    (sort_by (order_leb keys)
                       (filter (fun e => equal (get col e) v) table)))
          end
    | _, _, _ => Err "pq: column does not exist"
    end.

Definition execute (table : list Event) (text : string) (args : list string)
  : result (list (list Value)) :=
  match parse text with
  | None => Err "pq: syntax error"
  | Some st => select st table args
  end.

End sql.

(** How [database/sql] converts a column into a [string] and into an
    integer destination. *)
Definition scan_string (v : sql.Value) : result string :=
  match v with
  | sql.Text s => Ok s
  | sql.Int n => Ok (template.itoa n)
  end.

Definition scan_int (v : sql.Value) : result Z :=
  match v with
  | sql.Int n => Ok n
  | sql.Text s =>
      match sql.integer s with
      | Some n => Ok n
      | None => Err "sql: Scan error: converting driver.Value type string to a int: invalid syntax"
      end
  end.

(** [rows.Scan(&event.ID, &event.Pubkey, &event.CreatedAt, &event.Kind,
    &event.EventData)] on one row of the answer. *)
Definition Scan (row : list sql.Value) : FetchedRow :=
  match row with
  | [id; pubkey; created_at; kind; data] =>
      match scan_string id, scan_string pubkey, scan_int created_at,
            scan_int kind, scan_string data with
      | Ok id, Ok pubkey, Ok created_at, Ok kind, Ok data =>
          Scans {| ID := id; Pubkey := pubkey; CreatedAt := created_at;
                   Kind := kind; EventData := data |}
      | Err e, _, _, _, _
      | _, Err e, _, _, _
      | _, _, Err e, _, _
      | _, _, _, Err e, _
      | _, _, _, _, Err e => ScanFails e
      end
  | _ => ScanFails "sql: wrong number of destination arguments in Scan"
  end.

(** The columns of a row of the answer, in the order [query] lists them. *)
Definition row_of (e : Event) : list sql.Value :=
  [sql.Text (ID e); sql.Text (Pubkey e); sql.Int (CreatedAt e);
   sql.Int (Kind e); sql.Text (EventData e)].

(** A database that holds [event_backup] and executes what it is sent. *)
Definition postgres (table : list Event) : DB :=
  {| db_Query text args :=
       match sql.execute table text args with
       | Ok answer =>
           Ok {| rows_fetched := map Scan answer; rows_Err := None |}
       | Err e => Err e
       end |}.

(** [ORDER BY event_kind ASC, created_at DESC] as a test on two events. *)
Module KindThenNewest.
Definition leb (a b : Event) : bool :=
  (Kind a <? Kind b) || ((Kind a =? Kind b) && (CreatedAt b <=? CreatedAt a)).
End KindThenNewest.

(** The rows [WHERE pubkey = $1] keeps. *)
Definition authored_by (key : string) (e : Event) : bool :=
  String.eqb (Pubkey e) key.

(** The answer to [query] in closed form: the events of one author, by
    category and newest first within a category.  [execute_query] shows that
    this is what the statement means. *)
Definition select_events (table : list Event) (key : string) : list Event :=
  sql.sort_by KindThenNewest.leb (filter (authored_by key) table).

(** The same database when the connection breaks after [n] rows of the
    answer have been delivered: [Next] returns false early and [rows.Err()]
    holds the cause.  A break before the first row makes [db.Query] itself
    fail. *)
Definition interrupted (db : DB) (n : nat) (cause : error) : DB :=
  {| db_Query sql args :=
       match db_Query db sql args with
       | Ok rows =>
           match firstn n (rows_fetched rows) with
           | [] => Err cause
           | delivered =>
               Ok {| rows_fetched := delivered; rows_Err := Some cause |}
           end
       | Err e => Err e
       end |}.

(** Category ascending, and newest first within a category. *)
Definition kind_then_newest (a b : Event) : Prop :=
  Kind a < Kind b \/ (Kind a = Kind b /\ CreatedAt b <= CreatedAt a).

(** ** What a trace shows *)

(** The statements sent to the database in a trace, with their parameters. *)
Fixpoint queries (t : list Effect) : list (string * list string) :=
  match t with
  | [] => []
  | DbQuery sql args :: t' => (sql, args) :: queries t'
  | _ :: t' => queries t'
  end.

(** The relay URLs of the [RelayConnect] calls of a trace, in order. *)
Fixpoint connected (t : list Effect) : list string :=
  match t with
  | [] => []
  | RelayConnect url :: t' => url :: connected t'
  | _ :: t' => connected t'
  end.

(** The filter lists of the [Subscribe] calls of a trace, in order. *)
Fixpoint subscribed (t : list Effect) : list (list Filter) :=
  match t with
  | [] => []
  | RelaySubscribe _ filters :: t' => filters :: subscribed t'
  | _ :: t' => subscribed t'
  end.

Section FetchObservations.
Context {libs : GoLibs}.

(** The event is not a kind-0 event whose content unmarshals. *)
Definition no_profile (ev : RelayEvent) : bool :=
  negb (ev_Kind ev =? 0) || negb (is_ok (json_Unmarshal (ev_Content ev))).

(** What the loop over the events logs for an event it passes over. *)
Definition unmarshal_log (ev : RelayEvent) : list Effect :=
  if ev_Kind ev =? 0 then
    match json_Unmarshal (ev_Content ev) with
    | Err err => [LogPrintf ("Failed to unmarshal profile from event: " ++ err)]
    | Ok _ => []
    end
  else [].

(** The relay yields no profile: it cannot be reached, refuses the
    subscription, or its subscription ends without a kind-0 event whose
    content unmarshals. *)
Definition silent (net : Net) (filter : Filter) (url : string) : bool :=
  match net url with
  | Err _ => true
  | Ok relay =>
      match Subscribe relay [filter] with
      | Err _ => true
      | Ok events => forallb no_profile events
      end
  end.

(** The calls made on a relay that yields no profile. *)
Definition visit (net : Net) (filter : Filter) (url : string) : list Effect :=
  RelayConnect url ::
  match net url with
  | Err err =>
      [LogPrintf ("Failed to connect to relay " ++ url ++ ": " ++ err)]
  | Ok relay =>
      RelaySubscribe url [filter] ::
      match Subscribe relay [filter] with
      | Err err =>
          [RelayClose url;
           LogPrintf ("Failed to subscribe to relay " ++ url ++ ": " ++ err)]
      | Ok events => (flat_map unmarshal_log events ++ [RelayClose url])%list
      end
  end.

End FetchObservations.

(** ** Reading the markup of a rendered page

    A page is read the way a browser finds its tags: outside a tag a [<]
    opens one, inside a tag a [>] closes it unless it stands in a quoted
    attribute value.  [tags] lists the tags of a string as they are written;
    [skeleton] lists them with the quoted attribute values left out. *)

Module markup.
Import template.

Inductive state : Type :=
| Text
| Tag (acc : string)
| Dq (acc : string)
| Sq (acc : string).

Definition config : Type := (list string * state)%type.

Definition snoc (s : string) (c : ascii) : string := s ++ String c EmptyString.

Definition step (keep : bool) (cf : config) (c : ascii) : config :=
  let (out, st) := cf in
  match st with
  | Text => if Ascii.eqb c "<" then (out, Tag EmptyString) else (out, Text)
  | Tag acc =>
      if Ascii.eqb c ">" then ((out ++ [acc])%list, Text)
      else if Ascii.eqb c dquote then (out, Dq (snoc acc c))
      else if Ascii.eqb c squote then (out, Sq (snoc acc c))
      else (out, Tag (snoc acc c))
  | Dq acc =>
      if Ascii.eqb c dquote then (out, Tag (snoc acc c))
      else (out, Dq (if keep then snoc acc c else acc))
  | Sq acc =>
      if Ascii.eqb c squote then (out, Tag (snoc acc c))
      else (out, Sq (if keep then snoc acc c else acc))
  end.

Fixpoint run (keep : bool) (cf : config) (s : string) : config :=
  match s with
  | EmptyString => cf
  | String c s' => run keep (step keep cf c) s'
  end.

Definition tags (s : string) : list string := fst (run true ([], Text) s).

Definition skeleton (s : string) : list string := fst (run false ([], Text) s).

(** The character occurs in the string. *)
Fixpoint occurs (c : ascii) (s : string) : bool :=
  match s with
  | EmptyString => false
  | String d s' => Ascii.eqb d c || occurs c s'
  end.

(** What reading a string without [<] and without double quote does to a
    configuration in element content or in a double-quoted value. *)
Definition pass (keep : bool) (cf : config) (w : string) : config :=
  match snd cf with
  | Text => cf
  | Dq acc => (fst cf, Dq (if keep then acc ++ w else acc))
  | _ => run keep cf w
  end.

End markup.

(** The characters that can open or close a tag or an attribute value. *)
Definition markup_char (c : ascii) : bool :=
  Ascii.eqb c "<" || Ascii.eqb c ">" || Ascii.eqb c template.dquote
  || Ascii.eqb c template.squote.

(** ** The markup of the results page *)

(** The tag of the restore button and the tag of the copy button. *)
Definition restore_tag : string := Eval vm_compute in
  tpl "button class=`restore-btn` onclick=`showRestoreConfirmation(this)`".

Definition copy_tag : string := Eval vm_compute in
  tpl "button class=`copy-btn` onclick=`copyEventData(this)`".

(** A value with its text taken away: empty stays empty, anything else
    becomes a single harmless letter. *)
Definition redact (s : string) : string :=
  if template.truth s then "x" else EmptyString.

Definition redact_event (e : Event) : Event :=
  {| ID := redact (ID e); Pubkey := redact (Pubkey e);
     CreatedAt := CreatedAt e; Kind := Kind e;
     EventData := redact (EventData e) |}.

Definition redact_profile (p : UserProfile) : UserProfile :=
  {| Name := redact (Name p); About := redact (About p);
     Picture := redact (Picture p); Nip05 := redact (Nip05 p) |}.

(** None of the four markup characters occurs in the string. *)
Definition clean (s : string) : bool :=
  negb (markup.occurs "<" s) && negb (markup.occurs ">" s)
  && negb (markup.occurs template.dquote s)
  && negb (markup.occurs template.squote s).

(** Two pieces of a page, read from element content with attribute values
    left out, produce the same tags and end in element content. *)
Definition same_markup (a b : string) : Prop :=
  forall out,
    markup.run false (out, markup.Text) a = markup.run false (out, markup.Text) b
    /\ snd (markup.run false (out, markup.Text) b) = markup.Text.

(** The number of tags equal to [t]. *)
Definition count_tag (t : string) (l : list string) : nat :=
  List.length (filter (String.eqb t) l).

(** The tags of one [<div class="event">] element, as written. *)
Definition event_tags (e : Event) : list string :=
  ([tpl "div class=`event`"; tpl "div class=`event-header`";
    tpl "div class=`event-header-left`"; tpl "span class=`event-timestamp`";
    "/span"; "/div"; tpl "div class=`event-actions`"]
   ++ (if Kind e =? 3 then [restore_tag; "/button"] else [])
   ++ [copy_tag; "/button"; "/div"; "/div"; "detail";
       (tpl "div class=`event-content` data-content=`"
        ++ template.attrEscaper (EventData e) ++ tpl "`")%string;
       tpl "pre style=`white-space: pre-wrap; word-break: break-all;`";
       "/pre"; "/div"; "/detail"; tpl "div class=`event-id`";
       "/div"; "/div"])%list.

(** [sub] occurs in [s]. *)
Definition contains (sub s : string) : Prop :=
  exists before after, s = before ++ sub ++ after.

Fixpoint containsb (sub s : string) : bool :=
  strings.HasPrefix s sub
  || match s with
     | EmptyString => false
     | String _ s' => containsb sub s'
     end.

(** Read from element content, the piece ends in element content and holds
    [n] tags equal to [t]. *)
Definition counted (n : nat) (t : string) (a : string) : Prop :=
  snd (markup.run true ([], markup.Text) a) = markup.Text
  /\ count_tag t (markup.tags a) = n.

(** ** A concrete set of libraries for the worked examples

    [example_libs] agrees with the Go libraries on the inputs the examples
    below feed it: the key pair is the one given in NIP-19, the two JSON
    documents are decoded as [encoding/json] decodes them, the time layout is
    computed for a process whose local zone is UTC (the scratch image of the
    Dockerfile has no zone database), and the URL sanitiser is the identity,
    which it is on an [https] URL made of unreserved characters. *)

Module Example.

Definition npub : string :=
  "npub180cvv07tjdrrgpa0j7j7tmnyl2yr6yr7l8j4s3evf6u64th6gkwsyjh6w6".

Definition hex : string :=
  "3bf0c63fcb93463407af97a5e5ee64fa883d107ef9e558472c4eb9aaaefa459d".

Definition alice_json : string := Eval vm_compute in tpl "{`name`:`alice`}".

Definition alice : UserProfile :=
  {| Name := "alice"; About := ""; Picture := ""; Nip05 := "" |}.

Definition garbage : string := "oops".

Definition garbage_error : error :=
  "invalid character 'o' looking for beginning of value".

(** Days since 1970-01-01 to (year, month, day) of the proleptic Gregorian
    calendar. *)
Definition civil_from_days (days : Z) : Z * Z * Z :=
  let z := days + 719468 in
  let era := z / 146097 in
  let doe := z - era * 146097 in
  let yoe := (doe - doe / 1460 + doe / 36524 - doe / 146096) / 365 in
  let doy := doe - (365 * yoe + yoe / 4 - yoe / 100) in
  let mp := (5 * doy + 2) / 153 in
  let d := doy - (153 * mp + 2) / 5 + 1 in
  let m := if mp <? 10 then mp + 3 else mp - 9 in
  (yoe + era * 400 + (if m <=? 2 then 1 else 0), m, d).

Fixpoint zeros (n : nat) : string :=
  match n with O => EmptyString | S n' => String "0" (zeros n') end.

(** Decimal of a non-negative number, zero-padded to [width]. *)
Definition padded (width : nat) (n : Z) : string :=
  let digits := template.itoa n in
  zeros (width - String.length digits) ++ digits.

Definition utc_Format (sec : Z) : string :=
  let '(y, m, d) := civil_from_days (sec / 86400) in
  let s := sec mod 86400 in
  (if y <? 0 then "-" ++ padded 4 (- y) else padded 4 y)
  ++ "-" ++ padded 2 m ++ "-" ++ padded 2 d ++ " "
  ++ padded 2 (s / 3600) ++ ":" ++ padded 2 (s mod 3600 / 60)
  ++ ":" ++ padded 2 (s mod 60).

Definition example_libs : GoLibs :=
  {| nip19_Decode s :=
       if String.eqb s npub then Ok ("npub", DString hex)
       else Err "checksum failed";
     json_Unmarshal s :=
       if String.eqb s alice_json then Ok alice else Err garbage_error;
     time_Format := utc_Format;
     url_sanitize s := s |}.

(** No relay can be reached. *)
Definition offline : Net := fun _ => Err "dial tcp: connection refused".

(** A relay that accepts the subscription and delivers [events]. *)
Definition delivering (events : list RelayEvent) : Relay :=
  {| Subscribe _ := Ok events |}.

(** The first relay of the list answers with [delivering events], the
    others cannot be reached. *)
Definition only_first (events : list RelayEvent) : Net :=
  fun url =>
    if String.eqb url "wss://relay.damus.io" then Ok (delivering events)
    else offline url.

(** Every relay answers with [delivering events]. *)
Definition delivering_all (events : list RelayEvent) : Net :=
  fun _ => Ok (delivering events).

(** The second relay of the list answers with [relay], the others cannot
    be reached. *)
Definition only_second (relay : Relay) : Net :=
  fun url =>
    if String.eqb url "wss://yabu.me" then Ok relay else offline url.

(** A relay that accepts the connection and refuses the subscription. *)
Definition refusing : Relay :=
  {| Subscribe _ := Err "not connected" |}.

Definition garbage_event : RelayEvent :=
  {| ev_Kind := 0; ev_Content := garbage |}.

Definition alice_event : RelayEvent :=
  {| ev_Kind := 0; ev_Content := alice_json |}.

Definition text_note : RelayEvent :=
  {| ev_Kind := 1; ev_Content := "hello" |}.

Definition contacts : Event :=
  {| ID := "a1"; Pubkey := hex; CreatedAt := 1700000000; Kind := 3;
     EventData := "{}" |}.

Definition note_old : Event :=
  {| ID := "b2"; Pubkey := hex; CreatedAt := 1600000000; Kind := 1;
     EventData := "<b>old</b>" |}.

Definition note_new : Event :=
  {| ID := "c3"; Pubkey := hex; CreatedAt := 1650000000; Kind := 1;
     EventData := "new" |}.

Definition stranger : Event :=
  {| ID := "d4"; Pubkey := "00ff"; CreatedAt := 1650000001; Kind := 0;
     EventData := "{}" |}.

Definition table : list Event := [contacts; note_old; stranger; note_new].

End Example.

(** ** Further observations of a trace *)

(** The relay URLs of the [relay.Close] calls of a trace, in order. *)
Fixpoint closed (t : list Effect) : list string :=
  match t with
  | [] => []
  | RelayClose url :: t' => url :: closed t'
  | _ :: t' => closed t'
  end.

(** The relays of a list that accept a connection. *)
Definition reachable (net : Net) (urls : list string) : list string :=
  filter (fun url => is_ok (net url)) urls.

(** The row can be scanned. *)
Definition scans (row : FetchedRow) : bool :=
  match row with Scans _ => true | ScanFails _ => false end.

(** ** Groups and nesting in the results page *)

(** The tag that opens a group of events of one kind. *)
Definition group_tag : string := Eval vm_compute in
  tpl "div class=`kind-group`".

(** The tags the [{{if ne .Kind $currentKind}}] block writes for an event. *)
Definition group_tags (currentKind : Z) (e : Event) : list string :=
  if negb (Kind e =? currentKind) then
    ((if negb (currentKind =? -1) then ["/div"] else [])
     ++ [group_tag; tpl "h2 class=`kind-header`"; "/h2"])%list
  else [].

(** The tags of the range over the events. *)
Fixpoint range_tags (currentKind : Z) (events : list Event) : list string :=
  match events with
  | [] => []
  | e :: rest =>
      (group_tags currentKind e ++ event_tags e
       ++ range_tags
            (if negb (Kind e =? currentKind) then Kind e else currentKind)
            rest)%list
  end.

(** The number of places in a sequence of kinds where the kind differs from
    the one before it, [prev] standing before the first. *)
Fixpoint kind_changes (prev : Z) (kinds : list Z) : nat :=
  match kinds with
  | [] => O
  | k :: rest =>
      Nat.add (if Z.eqb k prev then O else 1%nat) (kind_changes k rest)
  end.

(** The tag opens a [div]. *)
Definition is_open_div (t : string) : bool :=
  String.eqb t "div" || strings.HasPrefix t "div ".

(** Follows the [div] elements of a list of tags from nesting depth [depth]:
    the depth after the last tag, or nothing when a [</div>] closes a [div]
    that was never opened. *)
Fixpoint div_walk (depth : nat) (ts : list string) : option nat :=
  match ts with
  | [] => Some depth
  | t :: ts' =>
      if is_open_div t then div_walk (S depth) ts'
      else if String.eqb t "/div" then
        match depth with
        | O => None
        | S depth' => div_walk depth' ts'
        end
      else div_walk depth ts'
  end.

(** The number of groups open after an event of kind [currentKind], -1
    standing for the start of the range. *)
Definition open_groups (currentKind : Z) : nat :=
  if currentKind =? -1 then O else 1%nat.

(** ** The attribute value a browser hands to the script

    A browser decodes the bytes of the page as UTF-8, replaces every CR LF
    pair and every other CR by LF, and then reads the markup.  In a quoted
    attribute value it replaces the character references and turns a NUL
    into U+FFFD.  [getAttribute] returns the value so read; a value is held
    here as the bytes of its UTF-8 encoding.

    [unescape] covers the references the escaper of the page can write: the
    names [amp], [lt], [gt] and [quot], and decimal references below 128.
    On anything else (a reference it does not know, an ampersand that starts
    none) it gives no answer. *)

Module dom.

Definition is_digit (c : ascii) : bool :=
  (48 <=? nat_of_ascii c)%nat && (nat_of_ascii c <=? 57)%nat.

Definition is_letter (c : ascii) : bool :=
  ((65 <=? nat_of_ascii c)%nat && (nat_of_ascii c <=? 90)%nat)
  || ((97 <=? nat_of_ascii c)%nat && (nat_of_ascii c <=? 122)%nat).

(** The value of a string of decimal digits. *)
Fixpoint decimal (acc : nat) (s : string) : option nat :=
  match s with
  | EmptyString => Some acc
  | String c s' =>
      if is_digit c then decimal (10 * acc + (nat_of_ascii c - 48)) s'
      else None
  end.

(** The character a reference stands for, given the text between [&] and
    the semicolon. *)
Definition resolve (name : string) : option ascii :=
  if String.eqb name "amp" then Some "&"%char
  else if String.eqb name "lt" then Some "<"%char
  else if String.eqb name "gt" then Some ">"%char
  else if String.eqb name "quot" then Some template.dquote
  else
    match name with
    | String "#" (String d digits) =>
        match decimal 0 (String d digits) with
        | Some n =>
            if (0 <? n)%nat && (n <? 128)%nat then Some (ascii_of_nat n)
            else None
        | None => None
        end
    | _ => None
    end.

(** U+FFFD in UTF-8. *)
Definition replacement_character : string :=
  String "239" (String "191" (String "189" EmptyString)).

(** [pending] holds the text read since an ampersand, if one is open. *)
Fixpoint unescape_from (pending : option string) (s : string) : option string :=
  match s with
  | EmptyString =>
      match pending with
      | None => Some EmptyString
      | Some _ => None
      end
  | String c s' =>
      match pending with
      | None =>
          if Ascii.eqb c "&" then unescape_from (Some EmptyString) s'
          else if Ascii.eqb c "000" then
            option_map (append replacement_character) (unescape_from None s')
          else option_map (String c) (unescape_from None s')
      | Some name =>
          if Ascii.eqb c ";" then
            match resolve name with
            | Some d => option_map (String d) (unescape_from None s')
            | None => None
            end
          else if is_digit c || is_letter c || Ascii.eqb c "#" then
            unescape_from (Some (name ++ String c EmptyString)) s'
          else None
      end
  end.

Definition unescape (s : string) : option string := unescape_from None s.

Definition CR : ascii := "013"%char.
Definition LF : ascii := "010"%char.

(** The newlines of the input stream: CR LF becomes LF, and so does a CR
    that no LF follows. *)
Fixpoint normalize_newlines (s : string) : string :=
  match s with
  | EmptyString => EmptyString
  | String c rest =>
      if Ascii.eqb c CR then
        match rest with
        | String d rest' =>
            if Ascii.eqb d LF then String LF (normalize_newlines rest')
            else String LF (normalize_newlines rest)
        | EmptyString => String LF EmptyString
        end
      else String c (normalize_newlines rest)
  end.

(** Where a UTF-8 decoder stands between two bytes: at the start of a
    character, before one, two or three continuation bytes, or after a lead
    byte that narrows the range of the byte that follows. *)
Inductive utf8_state : Type :=
| Start
| Tail1
| Tail2
| Tail3
| AfterE0
| AfterED
| AfterF0
| AfterF4
| Malformed.

Definition within (lo hi : nat) (c : ascii) : bool :=
  ((lo <=? nat_of_ascii c) && (nat_of_ascii c <=? hi))%nat.

Definition utf8_step (st : utf8_state) (c : ascii) : utf8_state :=
  match st with
  | Start =>
      if within 0 127 c then Start
      else if within 194 223 c then Tail1
      else if within 224 224 c then AfterE0
      else if within 237 237 c then AfterED
      else if within 225 239 c then Tail2
      else if within 240 240 c then AfterF0
      else if within 241 243 c then Tail3
      else if within 244 244 c then AfterF4
      else Malformed
  | Tail1 => if within 128 191 c then Start else Malformed
  | Tail2 => if within 128 191 c then Tail1 else Malformed
  | Tail3 => if within 128 191 c then Tail2 else Malformed
  | AfterE0 => if within 160 191 c then Tail1 else Malformed
  | AfterED => if within 128 159 c then Tail1 else Malformed
  | AfterF0 => if within 144 191 c then Tail2 else Malformed
  | AfterF4 => if within 128 143 c then Tail2 else Malformed
  | Malformed => Malformed
  end.

Fixpoint utf8_run (st : utf8_state) (s : string) : utf8_state :=
  match s with
  | EmptyString => st
  | String c rest => utf8_run (utf8_step st c) rest
  end.

(** The bytes are the encoding of a sequence of characters. *)
Definition valid_utf8 (s : string) : bool :=
  match utf8_run Start s with
  | Start => true
  | _ => false
  end.

(** The decoder of the page.  [pending] holds the bytes of the character
    being read.  A byte that cannot continue it ends it with U+FFFD and is
    read again as the start of a character; a byte that can start none, and
    a character cut short by the end of the input, give U+FFFD as well. *)
Fixpoint decode (st : utf8_state) (pending : string) (s : string) : string :=
  match s with
  | EmptyString =>
      match st with
      | Start => EmptyString
      | _ => replacement_character
      end
  | String c rest =>
      match utf8_step st c with
      | Start => pending ++ String c (decode Start EmptyString rest)
      | Malformed =>
          match st with
          | Start => replacement_character ++ decode Start EmptyString rest
          | _ =>
              replacement_character ++
              match utf8_step Start c with
              | Start => String c (decode Start EmptyString rest)
              | Malformed =>
                  replacement_character ++ decode Start EmptyString rest
              | st' => decode st' (String c EmptyString) rest
              end
          end
      | st' => decode st' (pending ++ String c EmptyString) rest
      end
  end.

(** [element.getAttribute(name)] on the raw bytes written between the quotes
    of the attribute. *)
Definition getAttribute (raw : string) : option string :=
  unescape (normalize_newlines (decode Start EmptyString raw)).

End dom.

(** ** [static/script.js]

    The script runs in the browser of the viewer.  What the browser and the
    signing extension do is the record [Browser]; JavaScript values are an
    arbitrary type [V], of which the script uses the own properties (what
    the spread of an object copies), numbers, and the JSON text.  The calls
    the script makes are recorded in a list of [Call]s. *)

Module script.

Section Script.
Variable V : Type.

(** An object as the list of its own properties, in their order. *)
Definition Object : Type := list (string * V).

Inductive SocketEvent : Type :=
| Open
| Close
| Error (detail : string).

Inductive Call : Type :=
| WriteText (text : string)
| SetTextContent (text : string)
| SetTimeout (ms : Z)
| ConsoleError (label detail : string)
| ConsoleLog (msg : string)
| Alert (msg : string)
| Confirm (msg : string)
| SignEvent (event : Object)
| NewWebSocket (url : string)
| Send (url data : string).

Record Browser : Type := mkBrowser {
  (** the own enumerable properties of a value, as [{...value}] copies them *)
  own_properties : V -> Object;
  (** the Number for an integer *)
  number : Z -> V;
  (** [JSON.parse] *)
  JSON_parse : string -> result V;
  (** [JSON.stringify] of a value as an element of an array *)
  JSON_stringify : V -> result string;
  (** [Date.now()], in milliseconds *)
  Date_now : Z;
  (** the answer of the viewer to [confirm] *)
  confirm : string -> bool;
  (** [window.nostr], when an extension is installed, with what its
      [signEvent] resolves to or the message of the error it fails with *)
  nostr : option (Object -> result V);
  (** [navigator.clipboard.writeText] *)
  clipboard_writeText : string -> result unit;
  (** [new WebSocket(url)]: the socket is created, or the constructor throws *)
  WebSocket : string -> result unit
}.

(** What the script finds around a button: the [data-content] attribute of
    the [.event-content] element of the enclosing [.event], and the text of
    the button. *)
Record Button : Type := mkButton {
  data_content : string;
  textContent : string
}.

(** [function copyEventData(button)] *)
Definition copyEventData (b : Browser) (button : Button) : list Call :=
  let content := data_content button in
  WriteText content ::
  match clipboard_writeText b content with
  | Ok _ =>
      let originalText := textContent button in
      [SetTextContent "Copied!"; SetTimeout 2000; SetTextContent originalText]
  | Err err =>
      [ConsoleError "Failed to copy: " err;
       Alert "Failed to copy to clipboard"]
  end.

(** The property list of [{...object, key: v}]: the value of an existing
    property is replaced where it stands, a new property comes last. *)
Fixpoint set_property (object : Object) (key : string) (v : V) : Object :=
  match object with
  | [] => [(key, v)]
  | (k, w) :: rest =>
      if String.eqb k key then (k, v) :: rest
      else (k, w) :: set_property rest key v
  end.

(** [object[key]] *)
Fixpoint get_property (object : Object) (key : string) : option V :=
  match object with
  | [] => None
  | (k, w) :: rest =>
      if String.eqb k key then Some w else get_property rest key
  end.

(** [{...event, created_at: Math.floor(Date.now() / 1000)}] *)
Definition updatedEvent (b : Browser) (event : V) : Object :=
  set_property (own_properties b event) "created_at"
    (number b (Date_now b / 1000)).

(** [JSON.stringify(["EVENT", event])], given the text of the event. *)
Definition request (text : string) : string :=
  tpl "[`EVENT`," ++ text ++ "]".

(** [function sendEventToRelay(event, relayUrl)], up to its return. *)
Definition sendEventToRelay (b : Browser) (event : V) (relayUrl : string)
  : list Call :=
  NewWebSocket relayUrl ::
  match WebSocket b relayUrl with
  | Ok _ => []
  | Err error => [ConsoleError ("Failed to connect to " ++ relayUrl ++ ":") error]
  end.

(** The handlers [onopen], [onclose] and [onerror] that [sendEventToRelay]
    puts on the socket. *)
Definition on_socket_event (b : Browser) (event : V) (relayUrl : string)
    (ev : SocketEvent) : list Call :=
  match ev with
  | Open =>
      match JSON_stringify b event with
      | Ok text => [Send relayUrl (request text)]
      | Err _ => []
      end
  | Close => [ConsoleLog ("Disconnected from " ++ relayUrl)]
  | Error detail =>
      [ConsoleError ("Error connecting to " ++ relayUrl ++ ":") detail]
  end.

(** [async function restoreEvent(event, relays)], up to its last statement. *)
Definition restoreEvent (b : Browser) (event : V) (relays : list string)
  : list Call :=
  let updated := updatedEvent b event in
  match nostr b with
  | None =>
      [Alert "Nostr extension not found. Please install a Nostr extension like Alby, nos2x or Flue."]
  | Some signEvent =>
      SignEvent updated ::
      match signEvent updated with
      | Ok signedEvent =>
          (flat_map (sendEventToRelay b signedEvent) relays
           ++ [Alert "Event restoration initiated. Check your Nostr client for status."])%list
      | Err message =>
          [ConsoleError "Error during restoration:" message;
           Alert ("Error during restoration: " ++ message)]
      end
  end.

(** The event the sockets of [restoreEvent] carry, when it got that far. *)
Definition signedEvent (b : Browser) (event : V) : option V :=
  match nostr b with
  | None => None
  | Some signEvent =>
      match signEvent (updatedEvent b event) with
      | Ok signed => Some signed
      | Err _ => None
      end
  end.

(** What happens when the browser fires event [ev] on the socket of the
    [i]-th relay: its handler runs, if the socket was created. *)
Definition fire (b : Browser) (signed : V) (relays : list string)
    (occurrence : nat * SocketEvent) : list Call :=
  match nth_error relays (fst occurrence) with
  | Some relayUrl =>
      if is_ok (WebSocket b relayUrl) then
        on_socket_event b signed relayUrl (snd occurrence)
      else []
  | None => []
  end.

(** [restoreEvent] followed by the socket events the browser fires, in the
    order [schedule] gives. *)
Definition restoration (b : Browser) (event : V) (relays : list string)
    (schedule : list (nat * SocketEvent)) : list Call :=
  (restoreEvent b event relays
   ++ match signedEvent b event with
      | Some signed => flat_map (fire b signed relays) schedule
      | None => []
      end)%list.

(** The relays of the script. *)
Definition relays : list string :=
  ["wss://relay.damus.io"; "wss://nostr-pub.wellorder.net";
   "wss://relay.nostr.band"; "wss://nostr-relay.nokotaro.com";
   "wss://nostr.bitcoiner.social"].

(** [relays.join('\n')] *)
Fixpoint join (sep : string) (l : list string) : string :=
  match l with
  | [] => EmptyString
  | [x] => x
  | x :: rest => x ++ sep ++ join sep rest
  end.

Definition newline : string := String "010" EmptyString.

(** The text of the confirmation dialog. *)
Definition question : string :=
  let relayList := join newline relays in
  "Restore this event to the following relays?" ++ newline ++ newline
  ++ relayList.

(** [function showRestoreConfirmation(button)]; when [JSON.parse] throws,
    the function ends there. *)
Definition showRestoreConfirmation (b : Browser) (button : Button)
  : list Call :=
  let eventData := data_content button in
  match JSON_parse b eventData with
  | Err _ => []
  | Ok event =>
      Confirm question ::
      (if confirm b question then restoreEvent b event relays else [])
  end.

(** The call is not the sending of a message. *)
Definition no_send (c : Call) : Prop :=
  match c with Send _ _ => False | _ => True end.

(** The sockets a list of calls opens, the requests for a signature it
    makes, and the messages it sends to [url]. *)
Fixpoint opened (t : list Call) : list string :=
  match t with
  | [] => []
  | NewWebSocket url :: t' => url :: opened t'
  | _ :: t' => opened t'
  end.

Fixpoint signing_requests (t : list Call) : list Object :=
  match t with
  | [] => []
  | SignEvent event :: t' => event :: signing_requests t'
  | _ :: t' => signing_requests t'
  end.

Fixpoint sent_to (url : string) (t : list Call) : list string :=
  match t with
  | [] => []
  | Send u data :: t' =>
      if String.eqb u url then data :: sent_to url t' else sent_to url t'
  | _ :: t' => sent_to url t'
  end.

(** The number of [Open] events of a schedule on socket [i]. *)
Definition opens_of (i : nat) (schedule : list (nat * SocketEvent)) : nat :=
  List.length
    (filter (fun occurrence =>
               Nat.eqb (fst occurrence) i
               && match snd occurrence with Open => true | _ => false end)
            schedule).

End Script.

Arguments WriteText {V} text.
Arguments SetTextContent {V} text.
Arguments SetTimeout {V} ms.
Arguments ConsoleError {V} label detail.
Arguments ConsoleLog {V} msg.
Arguments Alert {V} msg.
Arguments Confirm {V} msg.
Arguments SignEvent {V} event.
Arguments NewWebSocket {V} url.
Arguments Send {V} url data.
Arguments own_properties {V} b.
Arguments number {V} b.
Arguments JSON_parse {V} b.
Arguments JSON_stringify {V} b.
Arguments Date_now {V} b.
Arguments confirm {V} b.
Arguments nostr {V} b.
Arguments clipboard_writeText {V} b.
Arguments WebSocket {V} b.
Arguments copyEventData {V} b button.
Arguments set_property {V} object key v.
Arguments get_property {V} object key.
Arguments updatedEvent {V} b event.
Arguments sendEventToRelay {V} b event relayUrl.
Arguments on_socket_event {V} b event relayUrl ev.
Arguments restoreEvent {V} b event relays.
Arguments signedEvent {V} b event.
Arguments fire {V} b signed relays occurrence.
Arguments restoration {V} b event relays schedule.
Arguments showRestoreConfirmation {V} b button.
Arguments opened {V} t.
Arguments signing_requests {V} t.
Arguments sent_to {V} url t.
Arguments no_send {V} c.

End script.

(** The button of an event of the rendered page as the script finds it: the
    attribute value the template wrote, read back by the browser, and the
    text of the button. *)
Definition button_of (e : Event) (text : string) : option script.Button :=
  option_map (fun content => script.mkButton content text)
             (dom.getAttribute (template.attrEscaper (EventData e))).

(** ** [homeHandler] *)

(** ASCII white space, the part of [unicode.IsSpace] that matters at the
    ends of the landing template. *)
Definition is_space (c : ascii) : bool :=
  Ascii.eqb c " " || ((9 <=? nat_of_ascii c)%nat && (nat_of_ascii c <=? 13)%nat).

Fixpoint TrimLeft (s : string) : string :=
  match s with
  | EmptyString => EmptyString
  | String c s' => if is_space c then TrimLeft s' else s
  end.

Fixpoint TrimRight (s : string) : string :=
  match s with
  | EmptyString => EmptyString
  | String c s' =>
      match TrimRight s' with
      | EmptyString => if is_space c then EmptyString else String c EmptyString
      | rest => String c rest
      end
  end.

(** [strings.TrimSpace] *)
Definition TrimSpace (s : string) : string := TrimRight (TrimLeft s).

Definition home_template : string := Eval vm_compute in tpl
"
<!DOCTYPE html>
<html lang=`en`>
<head>
    <meta charset=`UTF-8`>
    <meta name=`viewport` content=`width=device-width, initial-scale=1.0`>
    <title>Nostr Event Restore Service</title>
    <link rel=`stylesheet` href=`/static/style.css`>
    <script src=`https://cdn.jsdelivr.net/npm/sweetalert2@11`></script>
    <script src=`/static/script.js`></script>
</head>
<body>
    <div class=`container`>
        <div class=`header`>
            <h1>Nostr Event Restore Service</h1>
            <p>This service allows you to restore and view Nostr events by npub identifier.</p>
            <p>Enter an npub (e.g., npub1...) in the box below to view stored events.</p>
        </div>

        <div class=`search-box`>
            <form action=`/npub/` method=`GET`>
                <input type=`text` name=`q` placeholder=`Enter npub (e.g., npub1...)` />
                <button type=`submit`>Search Events</button>
            </form>
        </div>

        <footer>
            <p>Nostr Event Restore Service &copy; 2025</p>
        </footer>
    </div>
</body>
</html>
".

(** [http.NotFound] *)
Definition http_NotFound : Response :=
  http_Error "404 page not found" 404.

(** [func homeHandler]: the template has no action, so the page is the
    trimmed template itself. *)
Definition homeHandler (r : Request) : Response :=
  if negb (String.eqb (URL_Path r) "/") then http_NotFound
  else {| Status := StatusOK; Body := TrimSpace home_template |}.

(** The tags of the form of the landing page. *)
Definition form_tag : string := Eval vm_compute in
  tpl "form action=`/npub/` method=`GET`".

Definition input_tag : string := Eval vm_compute in
  tpl "input type=`text` name=`q` placeholder=`Enter npub (e.g., npub1...)` /".

(** The tag is a [form], or an [input]. *)
Definition is_form (t : string) : bool :=
  String.eqb t "form" || strings.HasPrefix t "form ".

Definition is_input (t : string) : bool :=
  String.eqb t "input" || strings.HasPrefix t "input ".

(** ** A browser for the worked examples of the script *)

Module ScriptExample.

#[warnings="-register-all"] Inductive Json : Type :=
| JNum (n : Z)
| JStr (s : string)
| JObj (props : list (string * Json)).

Definition quoted (s : string) : string :=
  String template.dquote s ++ String template.dquote EmptyString.

(** [JSON.stringify] on these values, for strings that need no escape. *)
Fixpoint stringify (v : Json) : string :=
  match v with
  | JNum n => template.itoa n
  | JStr s => quoted s
  | JObj props =>
      "{"
      ++ (fix members (ps : list (string * Json)) : string :=
            match ps with
            | [] => EmptyString
            | [(k, w)] => quoted k ++ ":" ++ stringify w
            | (k, w) :: rest =>
                quoted k ++ ":" ++ stringify w ++ "," ++ members rest
            end) props
      ++ "}"
  end.

Definition properties (v : Json) : list (string * Json) :=
  match v with JObj props => props | _ => [] end.

(** An extension that signs by adding a [sig] property. *)
Definition signer (event : list (string * Json)) : result Json :=
  Ok (JObj (event ++ [("sig", JStr "f00d")])).

Definition contact_list : Json :=
  JObj [("kind", JNum 3); ("created_at", JNum 1600000000);
        ("content", JStr "")].

Definition contact_list_json : string := Eval vm_compute in
  tpl "{`kind`:3,`created_at`:1600000000,`content`:``}".

(** A browser with an extension, in which the viewer confirms and the
    socket to one relay cannot be created. *)
Definition browser : script.Browser Json :=
  {| script.own_properties := properties;
     script.number := JNum;
     script.JSON_parse s :=
       if String.eqb s contact_list_json then Ok contact_list
       else Err "Unexpected token";
     script.JSON_stringify v := Ok (stringify v);
     script.Date_now := 1700000123456;
     script.confirm _ := true;
     script.nostr := Some signer;
     script.clipboard_writeText _ := Ok tt;
     script.WebSocket url :=
       if String.eqb url "wss://relay.nostr.band" then Err "SecurityError"
       else Ok tt |}.

Definition signed_contact_list : Json :=
  JObj [("kind", JNum 3); ("created_at", JNum 1700000123);
        ("content", JStr ""); ("sig", JStr "f00d")].

Definition stored : Event :=
  {| ID := "e5"; Pubkey := Example.hex; CreatedAt := 1600000000; Kind := 3;
     EventData := contact_list_json |}.

End ScriptExample.

(** * Properties *)

Import template markup.

(** ** Prefixes *)

Lemma HasPrefix_app (p s : string) : strings.HasPrefix (p ++ s) p = true.
Proof.
  induction p as [|c p IH]; simpl; [reflexivity|].
  now rewrite Ascii.eqb_refl, IH.
Qed.

Lemma drop_app (p s : string) : strings.drop (String.length p) (p ++ s) = s.
Proof. induction p as [|c p IH]; simpl; auto. Qed.

Lemma TrimPrefix_app (p s : string) : strings.TrimPrefix (p ++ s) p = s.
Proof. unfold strings.TrimPrefix. now rewrite HasPrefix_app, drop_app. Qed.

(** ** The archive query *)

Section ArchiveQuery.

Lemma scan_rows_Scans (l acc : list Event) :
  scan_rows (map Scans l) acc = Ok (acc ++ l)%list.
Proof.
  revert acc. induction l as [|e l IH]; intros acc; simpl.
  - now rewrite app_nil_r.
  - rewrite IH. now rewrite <- app_assoc.
Qed.

Lemma leb_kind_then_newest (a b : Event) :
  KindThenNewest.leb a b = true <-> kind_then_newest a b.
Proof.
  unfold KindThenNewest.leb, kind_then_newest.
  rewrite orb_true_iff, andb_true_iff, Z.ltb_lt, Z.eqb_eq, Z.leb_le.
  reflexivity.
Qed.

Lemma leb_total (a b : Event) :
  KindThenNewest.leb a b = true \/ KindThenNewest.leb b a = true.
Proof.
  unfold KindThenNewest.leb.
  destruct (Z.ltb_spec (Kind a) (Kind b)); [now left|].
  destruct (Z.ltb_spec (Kind b) (Kind a)); [now right|].
  assert (Kind a = Kind b) as -> by lia.
  rewrite Z.eqb_refl. simpl.
  destruct (Z.leb_spec (CreatedAt b) (CreatedAt a)); [now left|right].
  apply Z.leb_le. lia.
Qed.

Lemma leb_trans (a b c : Event) :
  KindThenNewest.leb a b = true -> KindThenNewest.leb b c = true ->
  KindThenNewest.leb a c = true.
Proof.
  rewrite !leb_kind_then_newest. unfold kind_then_newest. lia.
Qed.

Lemma StronglySorted_weaken {A} (R S : A -> A -> Prop) (l : list A) :
  (forall a b, R a b -> S a b) -> StronglySorted R l -> StronglySorted S l.
Proof.
  intros HRS. induction 1 as [|a l Hl IH Ha]; constructor; auto.
  eapply Forall_impl; [|exact Ha]. auto.
Qed.

(** *** Sorting by insertion *)

Section Insertion.
Context {A : Type} (leb : A -> A -> bool).
Hypothesis total : forall a b, leb a b = true \/ leb b a = true.
Hypothesis trans : forall a b c,
  leb a b = true -> leb b c = true -> leb a c = true.

Lemma insert_perm (x : A) (l : list A) :
  Permutation (sql.insert leb x l) (x :: l).
Proof.
  induction l as [|y l IH]; simpl; [reflexivity|].
  destruct (leb x y); [reflexivity|].
  rewrite IH. apply perm_swap.
Qed.

Lemma sort_by_perm (l : list A) : Permutation (sql.sort_by leb l) l.
Proof.
  induction l as [|x l IH]; simpl; [reflexivity|].
  now rewrite insert_perm, IH.
Qed.

Lemma insert_sorted (x : A) (l : list A) :
  StronglySorted (fun a b => leb a b = true) l ->
  StronglySorted (fun a b => leb a b = true) (sql.insert leb x l).
Proof.
  induction 1 as [|y l Hl IH Hy]; simpl.
  - constructor; constructor.
  - destruct (leb x y) eqn:Hxy.
    + constructor; [now constructor|].
      constructor; [exact Hxy|].
      eapply Forall_impl; [|exact Hy]. intros z. now apply trans.
    + constructor; [exact IH|].
      eapply Permutation_Forall; [symmetry; apply insert_perm|].
      constructor; [|exact Hy].
      destruct (total x y) as [H|H]; [congruence|exact H].
Qed.

Lemma sort_by_sorted (l : list A) :
  StronglySorted (fun a b => leb a b = true) (sql.sort_by leb l).
Proof.
  induction l as [|x l IH]; simpl; [constructor|].
  now apply insert_sorted.
Qed.

End Insertion.

Lemma sort_by_ext {A} (f g : A -> A -> bool) (l : list A) :
  (forall a b, f a b = g a b) -> sql.sort_by f l = sql.sort_by g l.
Proof.
  intros Hfg. induction l as [|x l IH]; simpl; [reflexivity|].
  rewrite IH. generalize (sql.sort_by g l) as s.
  induction s as [|y s IHs]; simpl; [reflexivity|].
  now rewrite Hfg, IHs.
Qed.

(** *** The statement the code sends *)

Lemma parse_query :
  sql.parse query
  = Some {| sql.columns :=
              ["id"; "pubkey"; "created_at"; "event_kind"; "event_data"];
            sql.from := "event_backup";
            sql.where_column := "pubkey";
            sql.where_param := 1;
            sql.order_by :=
              [("event_kind", sql.ASC); ("created_at", sql.DESC)] |}.
Proof. vm_compute. reflexivity. Qed.

(** The ordering written in [query] is [KindThenNewest.leb]. *)
Lemma order_leb_query (a b : Event) :
  sql.order_leb
    [(fun e => sql.Int (Kind e), sql.ASC);
     (fun e => sql.Int (CreatedAt e), sql.DESC)] a b
  = KindThenNewest.leb a b.
Proof.
  unfold KindThenNewest.leb. cbn [sql.order_leb sql.compare].
  destruct (Z.compare_spec (Kind a) (Kind b)) as [H|H|H];
    destruct (Z.compare_spec (CreatedAt b) (CreatedAt a)) as [H'|H'|H'];
    destruct (Z.ltb_spec (Kind a) (Kind b));
    destruct (Z.eqb_spec (Kind a) (Kind b));
    destruct (Z.leb_spec (CreatedAt b) (CreatedAt a));
    try reflexivity; lia.
Qed.

(** Executing the text of [query] with one parameter gives the events of
    that author, by category and newest first within a category. *)
Lemma execute_query (table : list Event) (key : string) :
  sql.execute table query [key] = Ok (map row_of (select_events table key)).
Proof.
  unfold sql.execute. rewrite parse_query.
  unfold sql.select.
  cbn [sql.from sql.columns sql.where_column sql.where_param sql.order_by].
  cbn -[sql.sort_by filter map]. cbn [map].
  unfold select_events, row_of. do 2 f_equal.
  rewrite (sort_by_ext _ KindThenNewest.leb) by apply order_leb_query.
  f_equal.
Qed.

Lemma Scan_row_of (e : Event) : Scan (row_of e) = Scans e.
Proof. now destruct e. Qed.

Lemma select_events_sorted (table : list Event) (key : string) :
  StronglySorted kind_then_newest (select_events table key).
Proof.
  eapply StronglySorted_weaken.
  - intros a b H. apply leb_kind_then_newest. exact H.
  - apply sort_by_sorted; [apply leb_total|apply leb_trans].
Qed.

Lemma select_events_perm (table : list Event) (key : string) :
  Permutation (select_events table key) (filter (authored_by key) table).
Proof. apply sort_by_perm. Qed.

Lemma select_events_author (table : list Event) (key : string) :
  Forall (fun e => Pubkey e = key) (select_events table key).
Proof.
  eapply Permutation_Forall; [symmetry; apply select_events_perm|].
  apply Forall_forall. intros e He. apply filter_In in He.
  now apply String.eqb_eq.
Qed.

Lemma db_Query_postgres (table : list Event) (key : string) :
  db_Query (postgres table) query [key]
  = Ok {| rows_fetched := map Scans (select_events table key);
          rows_Err := None |}.
Proof.
  unfold postgres. cbn [db_Query]. rewrite execute_query, map_map.
  now rewrite (map_ext _ Scans Scan_row_of).
Qed.

Lemma query_postgres (table : list Event) (key : string) :
  queryEventsByPubkey (postgres table) key
  = (Ok (select_events table key), [DbQuery query [key]]).
Proof.
  unfold queryEventsByPubkey, bind, emit, ret.
  rewrite db_Query_postgres. cbn [rows_fetched].
  rewrite scan_rows_Scans. reflexivity.
Qed.

Lemma scan_rows_firstn (n : nat) (l : list Event) :
  scan_rows (firstn n (map Scans l)) [] = Ok (firstn n l).
Proof. now rewrite firstn_map, scan_rows_Scans. Qed.

(** When the cursor breaks after one row or more the function returns the
    rows delivered so far and no error; a break before the first row is
    reported. *)
Lemma query_interrupted (table : list Event) (key : string) (n : nat)
    (cause : error) :
  value (queryEventsByPubkey (interrupted (postgres table) n cause) key)
  = match firstn n (select_events table key) with
    | [] => Err cause
    | delivered => Ok delivered
    end.
Proof.
  unfold queryEventsByPubkey, interrupted, bind, emit, ret, value.
  cbn [db_Query]. rewrite db_Query_postgres. cbn [rows_fetched fst].
  rewrite firstn_map.
  destruct (firstn n (select_events table key)) as [|e l]; [reflexivity|].
  cbn [fst rows_fetched]. apply (scan_rows_Scans (e :: l) []).
Qed.

End ArchiveQuery.

(** The concrete libraries and the table on small inputs. *)

Example utc_Format_epoch : Example.utc_Format 0 = "1970-01-01 00:00:00".
Proof. reflexivity. Qed.

Example utc_Format_2023 : Example.utc_Format 1700000000 = "2023-11-14 22:13:20".
Proof. reflexivity. Qed.

Example select_events_table :
  select_events Example.table Example.hex
  = [Example.note_new; Example.note_old; Example.contacts].
Proof. reflexivity. Qed.

(** The answer follows the text of the statement: another ordering gives
    another sequence, another column list rows that do not scan, and a
    statement outside the grammar an error. *)
Example execute_oldest_first :
  db_Query (postgres Example.table)
    "select id, pubkey, created_at, event_kind, event_data from event_backup where pubkey = $1 order by created_at"
    [Example.hex]
  = Ok {| rows_fetched :=
            [Scans Example.note_old; Scans Example.note_new;
             Scans Example.contacts];
          rows_Err := None |}.
Proof. reflexivity. Qed.

Example execute_by_id :
  db_Query (postgres Example.table)
    "SELECT id, pubkey, created_at, event_kind, event_data FROM event_backup WHERE id = $1 ORDER BY event_kind ASC, created_at DESC"
    [Example.hex]
  = Ok {| rows_fetched := []; rows_Err := None |}.
Proof. reflexivity. Qed.

Example execute_two_columns :
  db_Query (postgres Example.table)
    "SELECT id, event_kind FROM event_backup WHERE pubkey = $1 ORDER BY event_kind DESC"
    [Example.hex]
  = Ok {| rows_fetched :=
            map (fun _ => ScanFails "sql: wrong number of destination arguments in Scan")
              [Example.contacts; Example.note_old; Example.note_new];
          rows_Err := None |}.
Proof. reflexivity. Qed.

Example execute_not_a_query :
  db_Query (postgres Example.table) "DELETE FROM event_backup" [Example.hex]
  = Err "pq: syntax error"
  /\ db_Query (postgres Example.table) query []
     = Err "pq: wrong number of parameters"
  /\ db_Query (postgres Example.table)
       "SELECT id FROM events WHERE pubkey = $1 ORDER BY id" [Example.hex]
     = Err "pq: relation events does not exist".
Proof. repeat split. Qed.

Example npubToHex_example :
  npubToHex (libs := Example.example_libs) Example.npub = Ok Example.hex.
Proof. reflexivity. Qed.

(** ** Identifier decoding and the choice of the identifier *)

Section Identifier.
Context {libs : GoLibs}.

Lemma npubToHex_bad_prefix (npub : string) :
  strings.HasPrefix npub "npub1" = false ->
  npubToHex npub = Err "invalid npub format: does not start with npub1".
Proof. intros H. unfold npubToHex. now rewrite H. Qed.

(** C2. An identifier that does not begin with [npub1] makes [npubToHex]
    fail with its prefix error; a request carrying it is answered with
    status 400 and the body [Invalid npub format], and the trace of the
    handler is empty: neither the database nor a relay has been called. *)
Theorem C2_bad_prefix_rejected_before_io (npub : string) :
  strings.HasPrefix npub "npub1" = false ->
  npubToHex npub = Err "invalid npub format: does not start with npub1"
  /\ forall (db : DB) (net : Net) (r : Request),
       request_npub r = npub ->
       npubHandler db net r
       = (http_Error "Invalid npub format" StatusBadRequest, []).
Proof.
  intros H. split; [now apply npubToHex_bad_prefix|].
  intros db net r Hr. unfold npubHandler.
  rewrite Hr, (npubToHex_bad_prefix npub H). reflexivity.
Qed.

Lemma request_npub_path (rest : string) (q : list (string * string)) :
  rest <> EmptyString ->
  request_npub (mkRequest ("/npub/" ++ rest) q) = rest.
Proof.
  intros H. unfold request_npub. cbn [URL_Path URL_Query].
  rewrite TrimPrefix_app.
  destruct (String.eqb_spec rest EmptyString); [contradiction|reflexivity].
Qed.


End Identifier.

Lemma C2_witness :
  npubToHex (libs := Example.example_libs) "nsec1vl029mgpspedva04g90vltkh6fvh240zqtv9k0t9af8935ke9laqsnlfe5"
  = Err "invalid npub format: does not start with npub1"
  /\ npubHandler (libs := Example.example_libs)
       (postgres Example.table) Example.offline
       (mkRequest "/npub/nsec1vl029mgpspedva04g90vltkh6fvh240zqtv9k0t9af8935ke9laqsnlfe5" [])
     = (http_Error "Invalid npub format" StatusBadRequest, []).
Proof.
  destruct (C2_bad_prefix_rejected_before_io (libs := Example.example_libs)
              "nsec1vl029mgpspedva04g90vltkh6fvh240zqtv9k0t9af8935ke9laqsnlfe5"
              eq_refl) as [H1 H2].
  split; [exact H1|]. apply H2. reflexivity.
Defined.


(** ** The profile fetch *)

Section ProfileFetch.
Context {libs : GoLibs}.

Lemma read_events_skip (skipped rest : list RelayEvent) :
  forallb no_profile skipped = true ->
  read_events (skipped ++ rest)%list
  = (value (read_events rest),
     (flat_map unmarshal_log skipped ++ trace (read_events rest))%list).
Proof.
  induction skipped as [|ev skipped IH]; intros H.
  - simpl. now destruct (read_events rest).
  - simpl in H. apply andb_true_iff in H as [Hev H].
    specialize (IH H). unfold no_profile in Hev. unfold unmarshal_log.
    cbn [app read_events flat_map].
    destruct (ev_Kind ev =? 0); simpl in Hev.
    + destruct (json_Unmarshal (ev_Content ev)); [discriminate|].
      unfold bind, emit. rewrite IH. reflexivity.
    + exact IH.
Qed.

Lemma read_events_none (events : list RelayEvent) :
  forallb no_profile events = true ->
  read_events events = (None, flat_map unmarshal_log events).
Proof.
  intros H. rewrite <- (app_nil_r events) at 1.
  rewrite read_events_skip by assumption. simpl. now rewrite app_nil_r.
Qed.

Lemma read_events_found (skipped later : list RelayEvent) (ev : RelayEvent)
    (profile : UserProfile) :
  forallb no_profile skipped = true ->
  ev_Kind ev = 0 ->
  json_Unmarshal (ev_Content ev) = Ok profile ->
  read_events (skipped ++ ev :: later)%list
  = (Some profile, flat_map unmarshal_log skipped).
Proof.
  intros Hs Hk Hp. rewrite read_events_skip by assumption.
  cbn [read_events]. rewrite Hk, Hp. simpl. now rewrite app_nil_r.
Qed.

Lemma fetch_loop_silent (net : Net) (filter : Filter) (url : string)
    (rest : list string) :
  silent net filter url = true ->
  fetch_loop net filter (url :: rest)
  = (value (fetch_loop net filter rest),
     (visit net filter url ++ trace (fetch_loop net filter rest))%list).
Proof.
  unfold silent, visit. intros H. cbn [fetch_loop].
  destruct (fetch_loop net filter rest) as [v t] eqn:Hrest.
  destruct (net url) as [relay|err].
  - destruct (Subscribe relay [filter]) as [events|err].
    + rewrite (read_events_none events H).
      unfold bind, emit, value, trace. cbn.
      now rewrite <- app_assoc.
    + reflexivity.
  - reflexivity.
Qed.

Lemma fetch_loop_all_silent (net : Net) (filter : Filter) (urls : list string) :
  forallb (silent net filter) urls = true ->
  fetch_loop net filter urls = (Ok emptyProfile, flat_map (visit net filter) urls).
Proof.
  induction urls as [|url urls IH]; intros H; [reflexivity|].
  simpl in H. apply andb_true_iff in H as [Hu H].
  rewrite (fetch_loop_silent _ _ _ _ Hu), (IH H). reflexivity.
Qed.

Lemma fetch_loop_found (net : Net) (filter : Filter)
    (before after : list string) (url : string) (relay : Relay)
    (skipped later : list RelayEvent) (ev : RelayEvent) (profile : UserProfile) :
  forallb (silent net filter) before = true ->
  net url = Ok relay ->
  Subscribe relay [filter] = Ok (skipped ++ ev :: later)%list ->
  forallb no_profile skipped = true ->
  ev_Kind ev = 0 ->
  json_Unmarshal (ev_Content ev) = Ok profile ->
  fetch_loop net filter (before ++ url :: after)%list
  = (Ok profile,
     (flat_map (visit net filter) before
      ++ RelayConnect url :: RelaySubscribe url [filter]
         :: flat_map unmarshal_log skipped ++ [RelayClose url])%list).
Proof.
  intros Hb Hn Hs Hsk Hk Hp.
  induction before as [|b before IH].
  - cbn [app fetch_loop flat_map]. rewrite Hn, Hs.
    rewrite (read_events_found _ _ _ _ Hsk Hk Hp).
    reflexivity.
  - simpl in Hb. apply andb_true_iff in Hb as [Hb1 Hb].
    cbn [app]. rewrite (fetch_loop_silent _ _ _ _ Hb1), (IH Hb).
    unfold value, trace. cbn [fst snd flat_map].
    now rewrite <- app_assoc.
Qed.

(** A subscription that does not end without a profile has a first kind-0
    event whose content unmarshals. *)
Lemma first_profile (events : list RelayEvent) :
  forallb no_profile events = false ->
  exists skipped ev later profile,
    events = (skipped ++ ev :: later)%list
    /\ forallb no_profile skipped = true
    /\ ev_Kind ev = 0
    /\ json_Unmarshal (ev_Content ev) = Ok profile.
Proof.
  induction events as [|ev events IH]; [discriminate|].
  cbn [forallb]. destruct (no_profile ev) eqn:Hev.
  - intros H. destruct (IH H) as (skipped & ev' & later & profile & -> & Hs & Hk & Hp).
    exists (ev :: skipped), ev', later, profile.
    cbn [forallb app]. rewrite Hev, Hs. auto.
  - intros _. unfold no_profile in Hev.
    apply orb_false_iff in Hev as [Hk Hp].
    apply negb_false_iff in Hk, Hp. apply Z.eqb_eq in Hk.
    destruct (json_Unmarshal (ev_Content ev)) as [profile|err] eqn:Hu;
      [|discriminate].
    exists [], ev, events, profile. auto.
Qed.

Lemma connected_app (t1 t2 : list Effect) :
  connected (t1 ++ t2) = (connected t1 ++ connected t2)%list.
Proof.
  induction t1 as [|[] t1 IH]; simpl; auto. now rewrite IH.
Qed.

Lemma connected_unmarshal_logs (events : list RelayEvent) :
  connected (flat_map unmarshal_log events) = [].
Proof.
  induction events as [|ev events IH]; [reflexivity|].
  cbn [flat_map]. rewrite connected_app, IH. unfold unmarshal_log.
  destruct (ev_Kind ev =? 0); [|reflexivity].
  now destruct (json_Unmarshal (ev_Content ev)).
Qed.

Lemma connected_visit (net : Net) (filter : Filter) (url : string) :
  connected (visit net filter url) = [url].
Proof.
  unfold visit. cbn [connected]. f_equal.
  destruct (net url) as [relay|err]; [|reflexivity].
  cbn [connected].
  destruct (Subscribe relay [filter]) as [events|err]; [|reflexivity].
  now rewrite connected_app, connected_unmarshal_logs.
Qed.

Lemma connected_visits (net : Net) (filter : Filter) (urls : list string) :
  connected (flat_map (visit net filter) urls) = urls.
Proof.
  induction urls as [|url urls IH]; [reflexivity|].
  cbn [flat_map]. now rewrite connected_app, connected_visit, IH.
Qed.

Lemma subscribed_app (t1 t2 : list Effect) :
  subscribed (t1 ++ t2) = (subscribed t1 ++ subscribed t2)%list.
Proof.
  induction t1 as [|[] t1 IH]; simpl; auto. now rewrite IH.
Qed.

Lemma subscribed_read_events (events : list RelayEvent) :
  subscribed (trace (read_events events)) = [].
Proof.
  induction events as [|ev events IH]; [reflexivity|].
  cbn [read_events]. destruct (ev_Kind ev =? 0); [|exact IH].
  destruct (json_Unmarshal (ev_Content ev)); [reflexivity|].
  unfold bind, emit, trace in *. now destruct (read_events events).
Qed.

Lemma subscribed_fetch_loop (net : Net) (filter : Filter) (urls : list string) :
  Forall (fun filters => filters = [filter])
         (subscribed (trace (fetch_loop net filter urls))).
Proof.
  induction urls as [|url urls IH]; [constructor|].
  cbn [fetch_loop]. unfold bind, emit, trace in *.
  destruct (fetch_loop net filter urls) as [v t].
  destruct (net url) as [relay|err]; [|exact IH].
  destruct (Subscribe relay [filter]) as [events|err].
  - pose proof (subscribed_read_events events) as Hr. unfold trace in Hr.
    destruct (read_events events) as [[p|] tr]; cbn in *.
    + constructor; [reflexivity|]. rewrite subscribed_app, Hr. constructor.
    + constructor; [reflexivity|].
      rewrite subscribed_app, Hr. exact IH.
  - cbn. constructor; [reflexivity|exact IH].
Qed.

Lemma queries_app (t1 t2 : list Effect) :
  queries (t1 ++ t2) = (queries t1 ++ queries t2)%list.
Proof.
  induction t1 as [|[] t1 IH]; simpl; auto. now rewrite IH.
Qed.

Lemma queries_read_events (events : list RelayEvent) :
  queries (trace (read_events events)) = [].
Proof.
  induction events as [|ev events IH]; [reflexivity|].
  cbn [read_events]. destruct (ev_Kind ev =? 0); [|exact IH].
  destruct (json_Unmarshal (ev_Content ev)); [reflexivity|].
  unfold bind, emit, trace in *. now destruct (read_events events).
Qed.

Lemma queries_fetch_loop (net : Net) (filter : Filter) (urls : list string) :
  queries (trace (fetch_loop net filter urls)) = [].
Proof.
  induction urls as [|url urls IH]; [reflexivity|].
  cbn [fetch_loop]. unfold bind, emit, trace in *.
  destruct (fetch_loop net filter urls) as [v t].
  destruct (net url) as [relay|err]; [|exact IH].
  destruct (Subscribe relay [filter]) as [events|err]; [|exact IH].
  pose proof (queries_read_events events) as Hr. unfold trace in Hr.
  destruct (read_events events) as [[p|] tr]; cbn in *.
  - now rewrite queries_app, Hr.
  - now rewrite queries_app, Hr.
Qed.

Lemma relays_NoDup : NoDup relays.
Proof.
  unfold relays. repeat constructor; simpl; intuition discriminate.
Qed.

Lemma later_not_among_earlier (before after : list string) (url u : string) :
  NoDup (before ++ url :: after) -> In u after -> ~ In u (before ++ [url]).
Proof.
  intros ND Hu Hin. apply in_app_or in Hin as [H|[H|[]]].
  - induction before as [|b before IH]; [contradiction|].
    cbn [app] in ND. apply NoDup_cons_iff in ND as [Hb ND].
    destruct H as [->|H]; [|now apply IH].
    apply Hb. apply in_or_app. right. now right.
  - subst u. apply NoDup_remove_2 in ND. apply ND.
    apply in_or_app. now right.
Qed.

Lemma fetch_loop_never_fails (net : Net) (filter : Filter) (urls : list string) :
  exists profile, value (fetch_loop net filter urls) = Ok profile.
Proof.
  induction urls as [|url urls [p IH]]; [now exists emptyProfile|].
  cbn [fetch_loop]. unfold bind, emit, value in *.
  destruct (fetch_loop net filter urls) as [v t]. cbn in IH. subst v.
  destruct (net url) as [relay|err]; [|now exists p].
  destruct (Subscribe relay [filter]) as [events|err]; [|now exists p].
  destruct (read_events events) as [[q|] tr]; [now exists q|now exists p].
Qed.

End ProfileFetch.

Section FetchClaims.
Context {libs : GoLibs}.

Lemma handler_renders (db : DB) (net : Net) (r : Request) (hexPubkey : string)
    (events : list Event) (profile : UserProfile) :
  npubToHex (request_npub r) = Ok hexPubkey ->
  value (queryEventsByPubkey db hexPubkey) = Ok events ->
  value (fetchProfileFromRelays net hexPubkey) = Ok profile ->
  value (npubHandler db net r)
  = {| Status := StatusOK;
       Body := render_events (request_npub r) hexPubkey events profile |}.
Proof.
  unfold npubHandler, value. intros Hn Hq Hf. rewrite Hn.
  destruct (queryEventsByPubkey db hexPubkey) as [qv qt].
  destruct (fetchProfileFromRelays net hexPubkey) as [fv ft].
  cbn in *. subst qv fv. reflexivity.
Qed.

Lemma handler_storage_error (db : DB) (net : Net) (r : Request)
    (hexPubkey : string) (err : error) :
  npubToHex (request_npub r) = Ok hexPubkey ->
  value (queryEventsByPubkey db hexPubkey) = Err err ->
  value (npubHandler db net r)
  = http_Error ("Database error: " ++ err) StatusInternalServerError.
Proof.
  unfold npubHandler, value. intros Hn Hq. rewrite Hn.
  destruct (queryEventsByPubkey db hexPubkey) as [qv qt].
  cbn in *. subst qv. reflexivity.
Qed.

(** C1. On a healthy database the archive query succeeds; it returns exactly
    the rows of the table authored by the requested key, every returned event
    has that author, and the sequence is ordered by kind ascending and, within
    a kind, by creation time descending.  The database executes the text it
    is sent ([sql.execute]), so the filter and the order are those written in
    [query].  A request whose identifier decodes
    to the key sends this one statement with this one key to the database,
    and its page is rendered from that sequence. *)
Theorem C1_query_one_author_sorted (table : list Event) (pubkey : string) :
  (exists events,
     value (queryEventsByPubkey (postgres table) pubkey) = Ok events
     /\ Forall (fun e => Pubkey e = pubkey) events
     /\ StronglySorted kind_then_newest events
     /\ Permutation events (filter (authored_by pubkey) table))
  /\ forall (net : Net) (r : Request),
       npubToHex (request_npub r) = Ok pubkey ->
       queries (trace (npubHandler (postgres table) net r))
       = [(query, [pubkey])]
       /\ exists profile,
            value (npubHandler (postgres table) net r)
            = {| Status := StatusOK;
                 Body := render_events (request_npub r) pubkey
                           (select_events table pubkey) profile |}.
Proof.
  split.
  - exists (select_events table pubkey). rewrite query_postgres.
    split; [reflexivity|]. split; [apply select_events_author|].
    split; [apply select_events_sorted|apply select_events_perm].
  - intros net r Hn. split.
    + unfold npubHandler. rewrite Hn, query_postgres.
      pose proof (queries_fetch_loop net (profile_filter pubkey) relays) as Hf.
      unfold fetchProfileFromRelays, bind, trace in *.
      destruct (fetch_loop net (profile_filter pubkey) relays) as [[p|e] t];
        cbn in *; rewrite ?queries_app, Hf; reflexivity.
    + destruct (fetch_loop_never_fails net (profile_filter pubkey) relays)
        as [profile Hf].
      exists profile. apply handler_renders; [exact Hn| |exact Hf].
      now rewrite query_postgres.
Qed.


(** C5, as amended. A relay that cannot be reached or refuses the subscription
    is logged and the loop goes on with the next relay.  A relay whose
    subscription ends without a kind-0 event that unmarshals is followed by
    the next relay too; what is logged for it is one line per kind-0 event
    whose content does not unmarshal, so nothing when it delivered nothing.
    After such an unmarshal error the loop first reads the remaining events
    of the same subscription.  When the subscription delivers, after events
    that are passed over, a kind-0 event that unmarshals, the loop closes the
    relay and returns that profile: none of the relays that follow is
    contacted.  A subscription that does not end without a profile has such
    a first event, so the next relay is tried only in the three cases
    above. *)
Theorem C5_fallback_in_order (net : Net) (filter : Filter) (url : string)
    (rest : list string) :
  (forall err, net url = Err err ->
     fetch_loop net filter (url :: rest)
     = (value (fetch_loop net filter rest),
        RelayConnect url
        :: LogPrintf ("Failed to connect to relay " ++ url ++ ": " ++ err)
        :: trace (fetch_loop net filter rest)))
  /\ (forall relay err, net url = Ok relay ->
        Subscribe relay [filter] = Err err ->
        fetch_loop net filter (url :: rest)
        = (value (fetch_loop net filter rest),
           RelayConnect url :: RelaySubscribe url [filter] :: RelayClose url
           :: LogPrintf ("Failed to subscribe to relay " ++ url ++ ": " ++ err)
           :: trace (fetch_loop net filter rest)))
  /\ (forall relay events, net url = Ok relay ->
        Subscribe relay [filter] = Ok events ->
        forallb no_profile events = true ->
        fetch_loop net filter (url :: rest)
        = (value (fetch_loop net filter rest),
           (RelayConnect url :: RelaySubscribe url [filter]
            :: flat_map unmarshal_log events
            ++ RelayClose url :: trace (fetch_loop net filter rest))%list))
  /\ (forall ev later err, ev_Kind ev = 0 ->
        json_Unmarshal (ev_Content ev) = Err err ->
        read_events (ev :: later)
        = (value (read_events later),
           LogPrintf ("Failed to unmarshal profile from event: " ++ err)
           :: trace (read_events later)))
  /\ (forall relay skipped ev later profile, net url = Ok relay ->
        Subscribe relay [filter] = Ok (skipped ++ ev :: later)%list ->
        forallb no_profile skipped = true ->
        ev_Kind ev = 0 ->
        json_Unmarshal (ev_Content ev) = Ok profile ->
        fetch_loop net filter (url :: rest)
        = (Ok profile,
           (RelayConnect url :: RelaySubscribe url [filter]
            :: flat_map unmarshal_log skipped ++ [RelayClose url])%list))
  /\ (forall events, forallb no_profile events = false ->
        exists skipped ev later profile,
          events = (skipped ++ ev :: later)%list
          /\ forallb no_profile skipped = true
          /\ ev_Kind ev = 0
          /\ json_Unmarshal (ev_Content ev) = Ok profile).
Proof.
  split; [|split; [|split; [|split; [|split]]]].
  - intros err Hn. rewrite fetch_loop_silent by (unfold silent; now rewrite Hn).
    unfold visit. now rewrite Hn.
  - intros relay err Hn Hs.
    rewrite fetch_loop_silent by (unfold silent; now rewrite Hn, Hs).
    unfold visit. now rewrite Hn, Hs.
  - intros relay events Hn Hs He.
    rewrite fetch_loop_silent by (unfold silent; now rewrite Hn, Hs).
    unfold visit. rewrite Hn, Hs. cbn [app]. now rewrite <- app_assoc.
  - intros ev later err Hk Hu. cbn [read_events]. rewrite Hk, Hu.
    unfold bind, emit, value, trace. cbn. now destruct (read_events later).
  - intros relay skipped ev later profile Hn Hs Hsk Hk Hp.
    apply (fetch_loop_found net filter [] rest url relay skipped later ev
             profile eq_refl Hn Hs Hsk Hk Hp).
  - apply first_profile.
Qed.

(** C6. Every subscription the fetch opens carries the one filter
    [{Authors: [pubkey], Kinds: [0], Limit: 1}].  When the relays before
    [url] yield no profile and [url] delivers, after events that are passed
    over, a kind-0 event whose content unmarshals, the fetch returns that
    profile whatever the relay would deliver afterwards, and the relays it
    has connected to are those up to [url]; none of the relays after [url]
    is among them. *)
Theorem C6_first_profile_wins (net : Net) (pubkey : string) :
  Forall (fun filters =>
            filters = [{| Authors := [pubkey]; Kinds := [0]; Limit := 1 |}])
         (subscribed (trace (fetchProfileFromRelays net pubkey)))
  /\ forall (before after : list string) (url : string) (relay : Relay)
       (skipped later : list RelayEvent) (ev : RelayEvent)
       (profile : UserProfile),
       relays = (before ++ url :: after)%list ->
       forallb (silent net (profile_filter pubkey)) before = true ->
       net url = Ok relay ->
       Subscribe relay [profile_filter pubkey]
       = Ok (skipped ++ ev :: later)%list ->
       forallb no_profile skipped = true ->
       ev_Kind ev = 0 ->
       json_Unmarshal (ev_Content ev) = Ok profile ->
       value (fetchProfileFromRelays net pubkey) = Ok profile
       /\ connected (trace (fetchProfileFromRelays net pubkey))
          = (before ++ [url])%list
       /\ forall u, In u after ->
            ~ In u (connected (trace (fetchProfileFromRelays net pubkey))).
Proof.
  split; [apply subscribed_fetch_loop|].
  intros before after url relay skipped later ev profile Hr Hb Hn Hs Hk Hev Hp.
  assert (connected (trace (fetchProfileFromRelays net pubkey))
          = (before ++ [url])%list) as Hc.
  { unfold fetchProfileFromRelays. rewrite Hr.
    rewrite (fetch_loop_found _ _ _ _ _ _ _ _ _ _ Hb Hn Hs Hk Hev Hp).
    unfold trace. cbn [snd].
    rewrite connected_app, connected_visits. cbn [connected].
    now rewrite connected_app, connected_unmarshal_logs. }
  split; [|split; [exact Hc|]].
  - unfold fetchProfileFromRelays. rewrite Hr.
    now rewrite (fetch_loop_found _ _ _ _ _ _ _ _ _ _ Hb Hn Hs Hk Hev Hp).
  - intros u Hu. rewrite Hc.
    apply (later_not_among_earlier before after); [|exact Hu].
    rewrite <- Hr. apply relays_NoDup.
Qed.

End FetchClaims.

Lemma C1_witness :
  queries (trace (npubHandler (libs := Example.example_libs)
                    (postgres Example.table) Example.offline
                    (mkRequest ("/npub/" ++ Example.npub) [])))
  = [(query, [Example.hex])]
  /\ exists profile,
       value (npubHandler (libs := Example.example_libs)
                (postgres Example.table) Example.offline
                (mkRequest ("/npub/" ++ Example.npub) []))
       = {| Status := StatusOK;
            Body := render_events (libs := Example.example_libs)
                      Example.npub Example.hex
                      [Example.note_new; Example.note_old; Example.contacts]
                      profile |}.
Proof.
  apply (proj2 (C1_query_one_author_sorted (libs := Example.example_libs)
                  Example.table Example.hex)
           Example.offline (mkRequest ("/npub/" ++ Example.npub) [])).
  reflexivity.
Defined.


(** C5 as the claim states it fails twice.  With a first relay that delivers
    an unparsable kind-0 event and then a parsable one, the fetch returns the
    profile of that same relay and the second relay is never contacted.  With
    a first relay that delivers nothing, nothing is logged for it: the only
    log lines are those of the two relays that cannot be reached. *)
Lemma C5_counterexample :
  fetchProfileFromRelays (libs := Example.example_libs)
    (Example.only_first [Example.garbage_event; Example.alice_event])
    Example.hex
  = (Ok Example.alice,
     [RelayConnect "wss://relay.damus.io";
      RelaySubscribe "wss://relay.damus.io" [profile_filter Example.hex];
      LogPrintf "Failed to unmarshal profile from event: invalid character 'o' looking for beginning of value";
      RelayClose "wss://relay.damus.io"])
  /\ trace (fetchProfileFromRelays (libs := Example.example_libs)
              (Example.only_first []) Example.hex)
     = [RelayConnect "wss://relay.damus.io";
        RelaySubscribe "wss://relay.damus.io" [profile_filter Example.hex];
        RelayClose "wss://relay.damus.io";
        RelayConnect "wss://yabu.me";
        LogPrintf "Failed to connect to relay wss://yabu.me: dial tcp: connection refused";
        RelayConnect "wss://nostr.compile-error.net";
        LogPrintf "Failed to connect to relay wss://nostr.compile-error.net: dial tcp: connection refused"].
Proof. split; reflexivity. Qed.

Lemma C5_witness :
  fetch_loop (libs := Example.example_libs) Example.offline
    (profile_filter Example.hex) ["wss://yabu.me"]
  = (Ok emptyProfile,
     [RelayConnect "wss://yabu.me";
      LogPrintf "Failed to connect to relay wss://yabu.me: dial tcp: connection refused"])
  /\ fetch_loop (libs := Example.example_libs)
       (Example.only_second Example.refusing)
       (profile_filter Example.hex) ["wss://yabu.me"]
     = (Ok emptyProfile,
        [RelayConnect "wss://yabu.me";
         RelaySubscribe "wss://yabu.me" [profile_filter Example.hex];
         RelayClose "wss://yabu.me";
         LogPrintf "Failed to subscribe to relay wss://yabu.me: not connected"])
  /\ fetch_loop (libs := Example.example_libs)
       (Example.only_first [Example.text_note; Example.garbage_event])
       (profile_filter Example.hex) ["wss://relay.damus.io"]
     = (Ok emptyProfile,
        [RelayConnect "wss://relay.damus.io";
         RelaySubscribe "wss://relay.damus.io" [profile_filter Example.hex];
         LogPrintf "Failed to unmarshal profile from event: invalid character 'o' looking for beginning of value";
         RelayClose "wss://relay.damus.io"])
  /\ read_events (libs := Example.example_libs)
       [Example.garbage_event; Example.alice_event]
     = (Some Example.alice,
        [LogPrintf "Failed to unmarshal profile from event: invalid character 'o' looking for beginning of value"])
  /\ fetch_loop (libs := Example.example_libs)
       (Example.delivering_all
          [Example.garbage_event; Example.alice_event; Example.text_note])
       (profile_filter Example.hex)
       ["wss://relay.damus.io"; "wss://yabu.me"]
     = (Ok Example.alice,
        [RelayConnect "wss://relay.damus.io";
         RelaySubscribe "wss://relay.damus.io" [profile_filter Example.hex];
         LogPrintf "Failed to unmarshal profile from event: invalid character 'o' looking for beginning of value";
         RelayClose "wss://relay.damus.io"]).
Proof.
  split; [|split; [|split; [|split]]].
  - apply (proj1 (C5_fallback_in_order (libs := Example.example_libs)
                    Example.offline (profile_filter Example.hex)
                    "wss://yabu.me" [])).
    reflexivity.
  - apply (proj1 (proj2 (C5_fallback_in_order (libs := Example.example_libs)
                    (Example.only_second Example.refusing)
                    (profile_filter Example.hex) "wss://yabu.me" []))
             Example.refusing); reflexivity.
  - exact (proj1 (proj2 (proj2 (C5_fallback_in_order
                    (libs := Example.example_libs)
                    (Example.only_first [Example.text_note; Example.garbage_event])
                    (profile_filter Example.hex) "wss://relay.damus.io" [])))
             (Example.delivering [Example.text_note; Example.garbage_event])
             [Example.text_note; Example.garbage_event]
             eq_refl eq_refl eq_refl).
  - exact (proj1 (proj2 (proj2 (proj2 (C5_fallback_in_order
                    (libs := Example.example_libs)
                    Example.offline (profile_filter Example.hex)
                    "wss://yabu.me" []))))
             Example.garbage_event [Example.alice_event]
             Example.garbage_error eq_refl eq_refl).
  - exact (proj1 (proj2 (proj2 (proj2 (proj2 (C5_fallback_in_order
                    (libs := Example.example_libs)
                    (Example.delivering_all
                       [Example.garbage_event; Example.alice_event;
                        Example.text_note])
                    (profile_filter Example.hex)
                    "wss://relay.damus.io" ["wss://yabu.me"])))))
             (Example.delivering
                [Example.garbage_event; Example.alice_event;
                 Example.text_note])
             [Example.garbage_event] Example.alice_event [Example.text_note]
             Example.alice eq_refl eq_refl eq_refl eq_refl eq_refl).
Defined.

Lemma C6_witness :
  value (fetchProfileFromRelays (libs := Example.example_libs)
           (Example.only_second
              (Example.delivering
                 [Example.text_note; Example.garbage_event;
                  Example.alice_event; Example.garbage_event]))
           Example.hex)
  = Ok Example.alice
  /\ connected
       (trace (fetchProfileFromRelays (libs := Example.example_libs)
                 (Example.only_second
                    (Example.delivering
                       [Example.text_note; Example.garbage_event;
                        Example.alice_event; Example.garbage_event]))
                 Example.hex))
     = ["wss://relay.damus.io"; "wss://yabu.me"].
Proof.
  destruct (proj2 (C6_first_profile_wins (libs := Example.example_libs)
                     (Example.only_second
                        (Example.delivering
                           [Example.text_note; Example.garbage_event;
                            Example.alice_event; Example.garbage_event]))
                     Example.hex)
              ["wss://relay.damus.io"] ["wss://nostr.compile-error.net"]
              "wss://yabu.me"
              (Example.delivering
                 [Example.text_note; Example.garbage_event;
                  Example.alice_event; Example.garbage_event])
              [Example.text_note; Example.garbage_event]
              [Example.garbage_event]
              Example.alice_event Example.alice
              eq_refl eq_refl eq_refl eq_refl eq_refl eq_refl eq_refl)
    as [H1 [H2 _]].
  split; [exact H1|exact H2].
Defined.

(** C4 at its failing input.  The connection breaks after the first of three
    rows: [Next] returns false with [rows.Err()] set, the function returns
    the one row it has read and no error, and the handler answers 200 with a
    page of one event.  A failed [Query] and a failed [Scan] are reported
    (see [handler_storage_error]); the check of [rows.Err()] is the one
    missing. *)
Theorem C4_iteration_error_not_reported :
  db_Query (interrupted (postgres Example.table) 1 "driver: bad connection")
    query [Example.hex]
  = Ok {| rows_fetched := [Scans Example.note_new];
          rows_Err := Some "driver: bad connection" |}
  /\ select_events Example.table Example.hex
     = [Example.note_new; Example.note_old; Example.contacts]
  /\ value (queryEventsByPubkey
              (interrupted (postgres Example.table) 1 "driver: bad connection")
              Example.hex)
     = Ok [Example.note_new]
  /\ value (npubHandler (libs := Example.example_libs)
              (interrupted (postgres Example.table) 1 "driver: bad connection")
              Example.offline
              (mkRequest ("/npub/" ++ Example.npub) []))
     = {| Status := StatusOK;
          Body := render_events (libs := Example.example_libs)
                    Example.npub Example.hex [Example.note_new]
                    emptyProfile |}.
Proof. split; [|split; [|split]]; reflexivity. Qed.

(** ** Reading markup *)

Section Markup.

Lemma run_app (keep : bool) (a b : string) (cf : config) :
  run keep cf (a ++ b) = run keep (run keep cf a) b.
Proof. revert cf. induction a as [|c a IH]; intros cf; simpl; auto. Qed.

Lemma occurs_app (c : ascii) (a b : string) :
  occurs c (a ++ b) = occurs c a || occurs c b.
Proof.
  induction a as [|d a IH]; simpl; [reflexivity|].
  now rewrite IH, orb_assoc.
Qed.

Lemma append_snoc (acc : string) (c : ascii) (w : string) :
  snoc acc c ++ w = acc ++ String c w.
Proof. unfold snoc. induction acc as [|d acc IH]; simpl; congruence. Qed.

Lemma append_assoc (a b c : string) : (a ++ b) ++ c = a ++ (b ++ c).
Proof. induction a as [|d a IH]; simpl; congruence. Qed.

Lemma append_empty (s : string) : s ++ EmptyString = s.
Proof. induction s as [|c s IH]; simpl; congruence. Qed.

Lemma run_Text_clean (keep : bool) (out : list string) (w : string) :
  occurs "<" w = false -> run keep (out, Text) w = (out, Text).
Proof.
  induction w as [|c w IH]; simpl; [reflexivity|].
  intros H. apply orb_false_iff in H as [Hc Hw].
  rewrite Hc. now apply IH.
Qed.

Lemma run_Dq_clean (keep : bool) (out : list string) (acc w : string) :
  occurs dquote w = false ->
  run keep (out, Dq acc) w = (out, Dq (if keep then acc ++ w else acc)).
Proof.
  revert acc. induction w as [|c w IH]; intros acc; simpl.
  - intros _. destruct keep; [now rewrite append_empty|reflexivity].
  - intros H. apply orb_false_iff in H as [Hc Hw].
    rewrite Hc, (IH _ Hw).
    destruct keep; [now rewrite append_snoc|reflexivity].
Qed.

Lemma run_pass (keep : bool) (cf : config) (w : string) :
  occurs "<" w = false -> occurs dquote w = false ->
  run keep cf w = pass keep cf w.
Proof.
  intros Hlt Hdq. destruct cf as [out [|acc|acc|acc]]; unfold pass; cbn [fst snd].
  - now apply run_Text_clean.
  - reflexivity.
  - now apply run_Dq_clean.
  - reflexivity.
Qed.

Lemma htmlReplacement_clean (c x : ascii) :
  markup_char c = true ->
  match htmlReplacement x with
  | Some repl => occurs c repl = false
  | None => Ascii.eqb x c = false
  end.
Proof.
  unfold markup_char. rewrite !orb_true_iff, !Ascii.eqb_eq.
  intros [[[->| ->]| ->]| ->]; unfold htmlReplacement;
    repeat match goal with
           | |- context [Ascii.eqb x ?d] =>
               destruct (Ascii.eqb_spec x d); [try reflexivity|]
           end; try reflexivity;
    apply Ascii.eqb_neq; assumption.
Qed.

Lemma htmlReplacer_clean (c : ascii) (s : string) :
  markup_char c = true -> occurs c (htmlReplacer s) = false.
Proof.
  intros Hc. induction s as [|x s IH]; [reflexivity|].
  cbn [htmlReplacer]. pose proof (htmlReplacement_clean c x Hc) as Hx.
  destruct (htmlReplacement x) as [repl|].
  - now rewrite occurs_app, Hx, IH.
  - cbn [occurs]. now rewrite Hx, IH.
Qed.

Lemma run_escaped (keep : bool) (cf : config) (s : string) :
  run keep cf (htmlReplacer s) = pass keep cf (htmlReplacer s).
Proof. apply run_pass; now apply htmlReplacer_clean. Qed.

End Markup.

(** ** The markup of the results page *)

(** Reads a page piece by piece: the escaped values are passed over with
    [run_escaped], the literal pieces are computed. *)
Ltac crunch :=
  unfold htmlEscaper, attrEscaper, rcdataEscaper;
  rewrite ?run_app; rewrite ?run_escaped;
  repeat match goal with
         | |- context [htmlReplacer ?x] => generalize (htmlReplacer x); intro
         end;
  vm_compute; reflexivity.

Section PageMarkup.
Context {libs : GoLibs}.

Lemma run_event_div (e : Event) :
  run true ([], Text) (event_div e) = (event_tags e, Text).
Proof.
  unfold event_div, event_tags. destruct (Kind e =? 3); crunch.
Qed.

Lemma tags_event_div (e : Event) : tags (event_div e) = event_tags e.
Proof. unfold tags. now rewrite run_event_div. Qed.

Lemma htmlReplacer_is_clean (s : string) : clean (htmlReplacer s) = true.
Proof.
  unfold clean. now rewrite !htmlReplacer_clean.
Qed.

Lemma truth_redact (s : string) : truth (redact s) = truth s.
Proof. unfold redact. now destruct (truth s) eqn:H. Qed.

Lemma same_markup_app (a b c d : string) :
  same_markup a b -> same_markup c d -> same_markup (a ++ c) (b ++ d).
Proof.
  intros Hab Hcd out. rewrite !run_app.
  destruct (Hab out) as [E1 T1]. rewrite E1.
  destruct (run false (out, Text) b) as [out' st]. cbn in T1. subst st.
  apply Hcd.
Qed.

Lemma same_markup_event_div (e : Event) :
  same_markup (event_div e) (event_div (redact_event e)).
Proof.
  intros out. unfold event_div, redact_event, GetFormattedDate.
  cbn [Kind ID EventData CreatedAt].
  destruct (Kind e =? 3); split; crunch.
Qed.

Lemma same_markup_group_header (currentKind : Z) (e : Event) :
  same_markup (tmpl.gap16 ++ group_header currentKind e)
              (tmpl.gap16 ++ group_header currentKind (redact_event e)).
Proof.
  intros out. unfold group_header, redact_event. cbn [Kind].
  destruct (Kind e =? currentKind), (currentKind =? -1); cbn [negb];
    split; crunch.
Qed.

Lemma same_markup_range_events (events : list Event) (currentKind : Z) :
  same_markup (range_events currentKind events)
              (range_events currentKind (map redact_event events)).
Proof.
  revert currentKind. induction events as [|e events IH]; intros currentKind.
  - intros out. split; reflexivity.
  - cbn [map range_events].
    change (Kind (redact_event e)) with (Kind e).
    rewrite <- (append_assoc tmpl.gap16 (group_header currentKind e)).
    rewrite <- (append_assoc tmpl.gap16
                  (group_header currentKind (redact_event e))).
    apply same_markup_app; [apply same_markup_group_header|].
    apply same_markup_app; [apply same_markup_event_div|apply IH].
Qed.

End PageMarkup.

Section PageSkeleton.
Context {libs : GoLibs}.

Lemma same_markup_title (name name' : string) :
  same_markup (tmpl.page_open ++ rcdataEscaper name ++ tmpl.after_title)
              (tmpl.page_open ++ rcdataEscaper name' ++ tmpl.after_title).
Proof. intros out. split; crunch. Qed.

Lemma same_markup_profile_header (npub hexPubkey : string) (p : UserProfile) :
  same_markup (profile_header npub hexPubkey p)
              (profile_header (redact npub) (redact hexPubkey)
                 (redact_profile p)).
Proof.
  intros out. unfold profile_header, redact_profile.
  cbn [Name About Picture Nip05]. rewrite !truth_redact.
  destruct (truth (Picture p)), (truth (Name p)), (truth (Nip05 p)),
    (truth (About p)); split; crunch.
Qed.

Lemma same_markup_total (n : Z) :
  same_markup (tmpl.total_label ++ htmlEscaper (itoa n) ++ tmpl.events_open)
              (tmpl.total_label ++ htmlEscaper (itoa n) ++ tmpl.events_open).
Proof. intros out. split; crunch. Qed.

Lemma same_markup_whitespace :
  same_markup tmpl.gap12 tmpl.gap12.
Proof. intros out. split; reflexivity. Qed.

Lemma same_markup_closing (s : string) :
  s = tmpl.gap12 ++ tmpl.div_close ++ tmpl.page_close
  \/ s = tmpl.no_events ++ tmpl.gap12 ++ tmpl.page_close ->
  same_markup s s.
Proof. intros [-> | ->] out; split; vm_compute; reflexivity. Qed.

Lemma events_container_nonempty (e : Event) (events : list Event) :
  events_container (e :: events)
  = tmpl.gap12 ++ range_events (-1) (e :: events)
    ++ tmpl.gap12 ++ tmpl.div_close.
Proof. reflexivity. Qed.

Lemma same_markup_page_end (events : list Event) :
  same_markup (events_container events ++ tmpl.page_close)
              (events_container (map redact_event events) ++ tmpl.page_close).
Proof.
  destruct events as [|e events].
  - intros out. split; vm_compute; reflexivity.
  - cbn [map]. rewrite !events_container_nonempty, !append_assoc.
    apply same_markup_app; [apply same_markup_whitespace|].
    apply same_markup_app.
    + apply (same_markup_range_events (e :: events)).
    + apply same_markup_closing. now left.
Qed.

Lemma same_markup_render_events (npub hexPubkey : string)
    (events : list Event) (profile : UserProfile) :
  same_markup (render_events npub hexPubkey events profile)
              (render_events (redact npub) (redact hexPubkey)
                 (map redact_event events) (redact_profile profile)).
Proof.
  unfold render_events. rewrite length_map.
  rewrite <- !(append_assoc tmpl.page_open), <- !(append_assoc (tmpl.page_open ++ _)).
  apply same_markup_app; [apply same_markup_title|].
  apply same_markup_app; [apply same_markup_profile_header|].
  rewrite <- !(append_assoc tmpl.total_label), <- !(append_assoc (tmpl.total_label ++ _)).
  apply same_markup_app; [apply same_markup_total|].
  apply same_markup_page_end.
Qed.

(** C8. The escapers never emit a character that can open or close a tag or
    an attribute value; the payload of an event stands, escaped, inside the
    quotes of [data-content]; and the tags and attributes of the whole page
    are those of the page rendered with every value (identifier, key, profile
    fields, payloads and event identifiers) replaced by a harmless letter. *)
Theorem C8_values_cannot_inject_markup (npub hexPubkey : string)
    (events : list Event) (profile : UserProfile) :
  (forall s, clean (htmlEscaper s) = true /\ clean (attrEscaper s) = true
             /\ clean (rcdataEscaper s) = true)
  /\ (forall e, tags (event_div e) = event_tags e)
  /\ skeleton (render_events npub hexPubkey events profile)
     = skeleton (render_events (redact npub) (redact hexPubkey)
                   (map redact_event events) (redact_profile profile)).
Proof.
  split; [|split].
  - intros s. repeat split; apply htmlReplacer_is_clean.
  - apply tags_event_div.
  - unfold skeleton.
    now rewrite (proj1 (same_markup_render_events npub hexPubkey events
                          profile [])).
Qed.

End PageSkeleton.

(** The reader of markup on a hostile payload: escaped, the payload stays a
    value; written raw into the attribute it would add an attribute. *)

Example hostile_payload_escaped :
  attrEscaper (tpl "`><script>alert(1)</script>")
  = "&#34;&gt;&lt;script&gt;alert(1)&lt;/script&gt;".
Proof. reflexivity. Qed.

Example escaped_payload_adds_no_tag :
  skeleton (tmpl.copy_and_content_open
            ++ attrEscaper (tpl "`><script>alert(1)</script>")
            ++ tmpl.pre_open)
  = skeleton (tmpl.copy_and_content_open ++ "x" ++ tmpl.pre_open).
Proof. reflexivity. Qed.

Example raw_payload_would_add_a_tag :
  skeleton (tmpl.copy_and_content_open
            ++ tpl "`><script>alert(1)</script>"
            ++ tmpl.pre_open)
  <> skeleton (tmpl.copy_and_content_open ++ "x" ++ tmpl.pre_open).
Proof. vm_compute. discriminate. Qed.

(** ** Counting the buttons of a page *)

Section PageButtons.
Context {libs : GoLibs}.

Lemma step_out (keep : bool) (out : list string) (st : state) (c : ascii) :
  step keep (out, st) c
  = ((out ++ fst (step keep ([], st) c))%list, snd (step keep ([], st) c)).
Proof.
  destruct st; cbn [step];
    repeat match goal with
           | |- context [if ?b then _ else _] => destruct b
           end; cbn [fst snd app]; now rewrite ?app_nil_r.
Qed.

Lemma run_out (keep : bool) (s : string) (out : list string) (st : state) :
  run keep (out, st) s
  = ((out ++ fst (run keep ([], st) s))%list, snd (run keep ([], st) s)).
Proof.
  revert out st. induction s as [|c s IH]; intros out st.
  - cbn. now rewrite app_nil_r.
  - cbn [run]. rewrite step_out.
    destruct (step keep ([], st) c) as [o st'] eqn:E. cbn [fst snd].
    rewrite (IH (out ++ o)%list st'), (IH o st').
    cbn [fst snd]. now rewrite app_assoc.
Qed.

Lemma count_tag_app (t : string) (l1 l2 : list string) :
  count_tag t (l1 ++ l2) = (count_tag t l1 + count_tag t l2)%nat.
Proof. unfold count_tag. now rewrite filter_app, length_app. Qed.

Lemma counted_app (n m : nat) (t a b : string) :
  counted n t a -> counted m t b -> counted (n + m) t (a ++ b).
Proof.
  intros [Ta Na] [Tb Nb]. unfold counted, tags in *.
  rewrite run_app.
  destruct (run true ([], Text) a) as [ta st]. cbn [fst snd] in *. subst st.
  rewrite run_out. cbn [fst snd].
  split; [exact Tb|]. now rewrite count_tag_app, Na, Nb.
Qed.

Lemma In_existsb (t : string) (l : list string) :
  existsb (String.eqb t) l = true <-> In t l.
Proof.
  rewrite existsb_exists. split.
  - intros [x [Hx E]]. apply String.eqb_eq in E. now subst.
  - intros H. exists t. split; [exact H|apply String.eqb_refl].
Qed.

Lemma counted_app_last (n : nat) (t a b : string) :
  counted n t a -> counted 0 t b -> counted n t (a ++ b).
Proof. intros Ha Hb. rewrite <- (Nat.add_0_r n). now apply counted_app. Qed.

Lemma counted_event_div (e : Event) :
  counted (if Kind e =? 3 then 1 else 0) restore_tag (event_div e)
  /\ counted 1 copy_tag (event_div e).
Proof.
  unfold counted, tags. rewrite run_event_div. cbn [fst snd].
  unfold event_tags, attrEscaper.
  generalize (htmlReplacer (EventData e)). intros w.
  destruct (Kind e =? 3); repeat split; vm_compute; reflexivity.
Qed.

Lemma counted_group_header (t : string) (currentKind : Z) (e : Event) :
  t = restore_tag \/ t = copy_tag ->
  counted 0 t (tmpl.gap16 ++ group_header currentKind e).
Proof.
  unfold counted, tags, group_header.
  destruct (Kind e =? currentKind), (currentKind =? -1); cbn [negb];
    intros [-> | ->]; split; crunch.
Qed.

Lemma counted_range_events (events : list Event) (currentKind : Z) :
  counted (List.length (filter (fun e => Kind e =? 3) events)) restore_tag
          (range_events currentKind events)
  /\ counted (List.length events) copy_tag (range_events currentKind events).
Proof.
  revert currentKind. induction events as [|e events IH]; intros currentKind.
  - split; split; reflexivity.
  - cbn [range_events filter List.length].
    rewrite <- (append_assoc tmpl.gap16 (group_header currentKind e)).
    destruct (IH (if negb (Kind e =? currentKind) then Kind e else currentKind))
      as [IHr IHc].
    destruct (counted_event_div e) as [Er Ec].
    split.
    + apply (counted_app 0 _ restore_tag);
        [apply counted_group_header; now left|].
      destruct (Kind e =? 3); cbn [List.length];
        [apply (counted_app 1)|apply (counted_app 0)]; assumption.
    + apply (counted_app 0 _ copy_tag);
        [apply counted_group_header; now right|].
      apply (counted_app 1); assumption.
Qed.

Lemma counted_page_top (t npub hexPubkey : string) (n : Z) (p : UserProfile) :
  t = restore_tag \/ t = copy_tag ->
  counted 0 t
    (tmpl.page_open ++ rcdataEscaper (Name p) ++ tmpl.after_title
     ++ profile_header npub hexPubkey p
     ++ tmpl.total_label ++ htmlEscaper (itoa n) ++ tmpl.events_open
     ++ tmpl.gap12).
Proof.
  unfold counted, tags, profile_header.
  destruct (truth (Picture p)), (truth (Name p)), (truth (Nip05 p)),
    (truth (About p)); intros [-> | ->]; split; crunch.
Qed.

Lemma counted_closing (t s : string) :
  t = restore_tag \/ t = copy_tag ->
  s = tmpl.gap12 ++ tmpl.div_close ++ tmpl.page_close
  \/ s = tmpl.no_events ++ tmpl.gap12 ++ tmpl.page_close ->
  counted 0 t s.
Proof. intros [-> | ->] [-> | ->]; split; vm_compute; reflexivity. Qed.

Lemma render_events_split (npub hexPubkey : string) (events : list Event)
    (profile : UserProfile) :
  render_events npub hexPubkey events profile
  = (tmpl.page_open ++ rcdataEscaper (Name profile) ++ tmpl.after_title
     ++ profile_header npub hexPubkey profile
     ++ tmpl.total_label
     ++ htmlEscaper (itoa (Z.of_nat (List.length events)))
     ++ tmpl.events_open ++ tmpl.gap12)
    ++ match events with
       | [] => tmpl.no_events ++ tmpl.gap12 ++ tmpl.page_close
       | _ :: _ =>
           range_events (-1) events
           ++ tmpl.gap12 ++ tmpl.div_close ++ tmpl.page_close
       end.
Proof.
  unfold render_events, events_container.
  destruct events as [|e events]; cbn [List.length];
    rewrite !append_assoc; reflexivity.
Qed.

Lemma counted_render_events (npub hexPubkey : string) (events : list Event)
    (profile : UserProfile) :
  counted (List.length (filter (fun e => Kind e =? 3) events)) restore_tag
          (render_events npub hexPubkey events profile)
  /\ counted (List.length events) copy_tag
             (render_events npub hexPubkey events profile).
Proof.
  rewrite render_events_split.
  destruct events as [|e events].
  - split; apply (counted_app 0 0);
      (apply counted_page_top || apply counted_closing); auto.
  - destruct (counted_range_events (e :: events) (-1)) as [Hr Hc].
    split.
    + apply (counted_app 0); [apply counted_page_top; now left|].
      apply counted_app_last; [exact Hr|apply counted_closing; auto].
    + apply (counted_app 0); [apply counted_page_top; now right|].
      apply counted_app_last; [exact Hc|apply counted_closing; auto].
Qed.

(** C9. The element of an event carries the restore button exactly when the
    kind of the event is 3, and always carries the copy button; in the whole
    page there are as many restore buttons as events of kind 3 and as many
    copy buttons as events. *)
Theorem C9_restore_only_for_kind_3 (npub hexPubkey : string)
    (events : list Event) (profile : UserProfile) :
  (forall e, (In restore_tag (tags (event_div e)) <-> Kind e = 3)
             /\ In copy_tag (tags (event_div e)))
  /\ count_tag restore_tag (tags (render_events npub hexPubkey events profile))
     = List.length (filter (fun e => Kind e =? 3) events)
  /\ count_tag copy_tag (tags (render_events npub hexPubkey events profile))
     = List.length events.
Proof.
  destruct (counted_render_events npub hexPubkey events profile)
    as [[_ Hr] [_ Hc]].
  split; [|split; assumption].
  intros e. rewrite tags_event_div. unfold event_tags, attrEscaper.
  generalize (htmlReplacer (EventData e)). intros w.
  destruct (Kind e =? 3) eqn:K.
  - apply Z.eqb_eq in K.
    split; [split; [intros _; exact K|intros _]|];
      apply In_existsb; vm_compute; reflexivity.
  - apply Z.eqb_neq in K.
    split; [split; [intros H|contradiction]|].
    + apply In_existsb in H. vm_compute in H. discriminate H.
    + apply In_existsb. vm_compute. reflexivity.
Qed.

End PageButtons.

(** ** A key without archived events *)

Section EmptyArchive.
Context {libs : GoLibs}.

Lemma HasPrefix_split (p s : string) :
  strings.HasPrefix s p = true -> exists after, s = p ++ after.
Proof.
  revert s. induction p as [|c p IH]; intros s H.
  - now exists s.
  - destruct s as [|d s]; [discriminate|]. cbn in H.
    apply andb_true_iff in H as [Hc Hp]. apply Ascii.eqb_eq in Hc. subst d.
    destruct (IH s Hp) as [after ->]. now exists after.
Qed.

Lemma containsb_contains (sub s : string) :
  containsb sub s = true -> contains sub s.
Proof.
  induction s as [|c s IH]; intros H.
  - cbn in H. rewrite orb_false_r in H.
    destruct (HasPrefix_split _ _ H) as [after E].
    now exists EmptyString, after.
  - cbn [containsb] in H. apply orb_true_iff in H as [H|H].
    + destruct (HasPrefix_split _ _ H) as [after E].
      now exists EmptyString, after.
    + destruct (IH H) as [before [after E]].
      exists (String c before), after. cbn. now rewrite E.
Qed.

Lemma contains_app_r (sub a b : string) :
  contains sub b -> contains sub (a ++ b).
Proof.
  intros [before [after ->]]. exists (a ++ before), after.
  now rewrite append_assoc.
Qed.

Lemma render_events_empty (npub hexPubkey : string) (profile : UserProfile) :
  render_events npub hexPubkey [] profile
  = (tmpl.page_open ++ rcdataEscaper (Name profile) ++ tmpl.after_title
     ++ profile_header npub hexPubkey profile)
    ++ tmpl.total_label ++ "0" ++ tmpl.events_open
    ++ tmpl.gap12 ++ tmpl.no_events ++ tmpl.gap12 ++ tmpl.page_close.
Proof.
  unfold render_events, events_container. cbn [List.length].
  rewrite !append_assoc. reflexivity.
Qed.

(** C7. When the identifier decodes to a key for which the table holds no
    row, the query returns the empty sequence, the response has status 200,
    and the page holds the count [Total Events Found: 0], the sentence
    [No events found for this pubkey.] and no event entry. *)
Theorem C7_empty_archive_page (table : list Event) (net : Net) (r : Request)
    (pubkey : string) :
  npubToHex (request_npub r) = Ok pubkey ->
  filter (authored_by pubkey) table = [] ->
  value (queryEventsByPubkey (postgres table) pubkey) = Ok []
  /\ Status (value (npubHandler (postgres table) net r)) = StatusOK
  /\ contains "<p><strong>Total Events Found:</strong> 0</p>"
       (Body (value (npubHandler (postgres table) net r)))
  /\ contains "<p>No events found for this pubkey.</p>"
       (Body (value (npubHandler (postgres table) net r)))
  /\ count_tag copy_tag (tags (Body (value (npubHandler (postgres table) net r))))
     = 0%nat.
Proof.
  intros Hn Hrows.
  assert (value (queryEventsByPubkey (postgres table) pubkey) = Ok []) as Hq.
  { rewrite query_postgres. unfold select_events. now rewrite Hrows. }
  destruct (fetch_loop_never_fails net (profile_filter pubkey) relays)
    as [profile Hf].
  rewrite (handler_renders _ _ _ _ _ _ Hn Hq Hf). cbn [Status Body].
  split; [exact Hq|]. split; [reflexivity|].
  split; [|split].
  - rewrite render_events_empty. apply contains_app_r.
    apply containsb_contains. vm_compute. reflexivity.
  - rewrite render_events_empty. apply contains_app_r.
    apply containsb_contains. vm_compute. reflexivity.
  - apply (counted_render_events (request_npub r) pubkey [] profile).
Qed.

End EmptyArchive.

Lemma C7_witness :
  value (queryEventsByPubkey (postgres [Example.stranger]) Example.hex) = Ok []
  /\ Status (value (npubHandler (libs := Example.example_libs)
                      (postgres [Example.stranger]) Example.offline
                      (mkRequest ("/npub/" ++ Example.npub) [])))
     = StatusOK
  /\ contains "<p><strong>Total Events Found:</strong> 0</p>"
       (Body (value (npubHandler (libs := Example.example_libs)
                       (postgres [Example.stranger]) Example.offline
                       (mkRequest ("/npub/" ++ Example.npub) []))))
  /\ contains "<p>No events found for this pubkey.</p>"
       (Body (value (npubHandler (libs := Example.example_libs)
                       (postgres [Example.stranger]) Example.offline
                       (mkRequest ("/npub/" ++ Example.npub) []))))
  /\ count_tag copy_tag
       (markup.tags
          (Body (value (npubHandler (libs := Example.example_libs)
                          (postgres [Example.stranger]) Example.offline
                          (mkRequest ("/npub/" ++ Example.npub) [])))))
     = 0%nat.
Proof.
  apply (C7_empty_archive_page (libs := Example.example_libs)
           [Example.stranger] Example.offline
           (mkRequest ("/npub/" ++ Example.npub) []) Example.hex);
    reflexivity.
Defined.

(** * Further properties of the code *)

(** ** Rejection and failure in the handler *)

Section HandlerFailures.
Context {libs : GoLibs}.

Lemma npubToHex_Ok (npub hexPubkey : string) :
  npubToHex npub = Ok hexPubkey
  <-> strings.HasPrefix npub "npub1" = true
      /\ nip19_Decode npub = Ok ("npub", DString hexPubkey).
Proof.
  unfold npubToHex. split.
  - destruct (strings.HasPrefix npub "npub1"); cbn [negb]; [|discriminate].
    destruct (nip19_Decode npub) as [[prefix v]|err]; [|discriminate].
    destruct (String.eqb_spec prefix "npub") as [->|]; cbn [negb];
      [|discriminate].
    destruct v; [|discriminate]. intros H. injection H as ->. now split.
  - intros [-> ->]. reflexivity.
Qed.

(** X1. [npubToHex] succeeds exactly when the identifier begins with [npub1]
    and [nip19.Decode] gives the prefix [npub] with a string value, which is
    then the key.  In every other case (the decoder fails, the entity is of
    another type, the value is not a string) the handler answers 400 with
    [Invalid npub format] and calls neither the database nor a relay. *)
Theorem X1_only_npub_entities_pass (npub : string) :
  (forall hexPubkey,
     npubToHex npub = Ok hexPubkey
     <-> strings.HasPrefix npub "npub1" = true
         /\ nip19_Decode npub = Ok ("npub", DString hexPubkey))
  /\ forall (db : DB) (net : Net) (r : Request),
       request_npub r = npub ->
       is_ok (npubToHex npub) = false ->
       npubHandler db net r
       = (http_Error "Invalid npub format" StatusBadRequest, []).
Proof.
  split; [intros h; apply npubToHex_Ok|].
  intros db net r Hr Hn. unfold npubHandler. rewrite Hr.
  destruct (npubToHex npub); [discriminate|reflexivity].
Qed.

Lemma scan_rows_fails (good : list Event) (err : error)
    (rest : list FetchedRow) (acc : list Event) :
  scan_rows (map Scans good ++ ScanFails err :: rest) acc = Err err.
Proof.
  revert acc. induction good as [|e good IH]; intros acc; [reflexivity|].
  cbn [map app scan_rows]. apply IH.
Qed.

(** X2. When [db.Query] fails, or when a row of the cursor cannot be scanned
    (however many rows were scanned before it), the handler answers 500 with
    [Database error:] and the error; the rows already read are dropped, and
    the only call that has left the process is the one query: no relay is
    contacted. *)
Theorem X2_storage_error_stops_the_request (db : DB) (net : Net) (r : Request)
    (hexPubkey : string) (err : error) :
  npubToHex (request_npub r) = Ok hexPubkey ->
  db_Query db query [hexPubkey] = Err err
  \/ (exists rows good rest,
        db_Query db query [hexPubkey] = Ok rows
        /\ rows_fetched rows = (map Scans good ++ ScanFails err :: rest)%list) ->
  npubHandler db net r
  = (http_Error ("Database error: " ++ err) StatusInternalServerError,
     [DbQuery query [hexPubkey]]).
Proof.
  intros Hn Hq. unfold npubHandler, queryEventsByPubkey, bind, emit, ret.
  rewrite Hn.
  destruct Hq as [Hq|[rows [good [rest [Hq Hrows]]]]]; rewrite Hq.
  - reflexivity.
  - rewrite Hrows, scan_rows_fails. reflexivity.
Qed.

(** X3. The landing form and the path are two ways to the same response: a
    request to [/npub/] whose first [q] value is a non-empty identifier is
    answered exactly as the request to [/npub/] followed by that
    identifier, whatever else the query strings hold. *)
Theorem X3_form_and_path_agree (db : DB) (net : Net) (npub : string)
    (before after q' : list (string * string)) :
  npub <> EmptyString ->
  Forall (fun kv => fst kv <> "q") before ->
  npubHandler db net
    (mkRequest "/npub/" (before ++ ("q", npub) :: after))
  = npubHandler db net (mkRequest ("/npub/" ++ npub) q').
Proof.
  intros Hne Hb.
  assert (request_npub (mkRequest "/npub/" (before ++ ("q", npub) :: after))
          = npub) as H1.
  { unfold request_npub. cbn [URL_Path URL_Query].
    change (strings.TrimPrefix "/npub/" "/npub/") with EmptyString.
    cbn [String.eqb].
    induction Hb as [|[k v] before Hk Hb IH]; cbn [app Query_Get].
    - reflexivity.
    - cbn [fst] in Hk. destruct (String.eqb_spec k "q"); [contradiction|].
      exact IH. }
  unfold npubHandler. now rewrite H1, request_npub_path.
Qed.

End HandlerFailures.

(** ** Connections of the profile fetch *)

Section FetchConnections.
Context {libs : GoLibs}.

Lemma closed_app (t1 t2 : list Effect) :
  closed (t1 ++ t2) = (closed t1 ++ closed t2)%list.
Proof.
  induction t1 as [|[] t1 IH]; simpl; auto. now rewrite IH.
Qed.

Lemma read_events_only_logs (events : list RelayEvent) :
  connected (trace (read_events events)) = []
  /\ closed (trace (read_events events)) = [].
Proof.
  induction events as [|ev events [IH1 IH2]]; [now split|].
  cbn [read_events]. destruct (ev_Kind ev =? 0); [|now split].
  destruct (json_Unmarshal (ev_Content ev)); [now split|].
  unfold bind, emit, trace in *. now destruct (read_events events).
Qed.

Lemma fetch_loop_connections (net : Net) (filter : Filter)
    (urls : list string) :
  (exists n, connected (trace (fetch_loop net filter urls)) = firstn n urls)
  /\ closed (trace (fetch_loop net filter urls))
     = reachable net (connected (trace (fetch_loop net filter urls))).
Proof.
  induction urls as [|url urls [[n IHc] IHx]].
  - split; [now exists O|reflexivity].
  - cbn [fetch_loop]. unfold bind, emit, trace, reachable in *.
    destruct (fetch_loop net filter urls) as [v t]. cbn [snd] in *.
    destruct (net url) as [relay|err] eqn:Hn.
    + destruct (Subscribe relay [filter]) as [events|err].
      * destruct (read_events_only_logs events) as [Rc Rx].
        unfold trace in Rc, Rx.
        destruct (read_events events) as [[p|] tr]; cbn [snd] in *.
        -- split.
           ++ exists 1%nat. cbn. rewrite connected_app, Rc. reflexivity.
           ++ cbn. rewrite connected_app, closed_app, Rc, Rx, Hn. reflexivity.
        -- split.
           ++ exists (S n). cbn. rewrite connected_app, Rc. cbn.
              now rewrite IHc.
           ++ cbn. rewrite connected_app, closed_app, Rc, Rx, Hn. cbn.
              now rewrite IHx.
      * split.
        -- exists (S n). cbn. now rewrite IHc.
        -- cbn. rewrite Hn. cbn. now rewrite IHx.
    + split.
      * exists (S n). cbn. now rewrite IHc.
      * cbn. rewrite Hn. cbn. exact IHx.
Qed.

(** X4. Whatever the relays do, the profile fetch returns a profile and no
    error; the relays it connects to are an initial part of the fixed list,
    each at most once and in order; and the connections it closes are
    exactly the ones that were established, so none stays open. *)
Theorem X4_fetch_never_fails_and_closes (net : Net) (pubkey : string) :
  (exists profile, value (fetchProfileFromRelays net pubkey) = Ok profile)
  /\ (exists n,
        connected (trace (fetchProfileFromRelays net pubkey))
        = firstn n relays)
  /\ closed (trace (fetchProfileFromRelays net pubkey))
     = reachable net (connected (trace (fetchProfileFromRelays net pubkey))).
Proof.
  unfold fetchProfileFromRelays.
  split; [apply fetch_loop_never_fails|apply fetch_loop_connections].
Qed.

End FetchConnections.

(** ** Groups and nesting in the results page *)

Section PageGroups.
Context {libs : GoLibs}.

Lemma tags_app (a b : string) :
  snd (run true ([], Text) a) = Text ->
  tags (a ++ b) = (tags a ++ tags b)%list
  /\ snd (run true ([], Text) (a ++ b)) = snd (run true ([], Text) b).
Proof.
  intros Ha. unfold tags. rewrite run_app.
  destruct (run true ([], Text) a) as [ta st]. cbn [fst snd] in *. subst st.
  rewrite run_out. cbn [fst snd]. now split.
Qed.

Lemma run_group_header (currentKind : Z) (e : Event) :
  run true ([], Text) (tmpl.gap16 ++ group_header currentKind e)
  = (group_tags currentKind e, Text).
Proof.
  unfold group_header, group_tags.
  destruct (Kind e =? currentKind), (currentKind =? -1); cbn [negb]; crunch.
Qed.

Lemma run_range_events (events : list Event) (currentKind : Z) :
  run true ([], Text) (range_events currentKind events)
  = (range_tags currentKind events, Text).
Proof.
  revert currentKind. induction events as [|e events IH]; intros currentKind.
  - reflexivity.
  - cbn [range_events range_tags].
    rewrite <- (append_assoc tmpl.gap16 (group_header currentKind e)).
    rewrite run_app, run_group_header, run_app, run_out, run_event_div.
    cbn [fst snd]. rewrite run_out, IH. cbn [fst snd].
    now rewrite <- app_assoc.
Qed.

Lemma run_page_top (npub hexPubkey : string) (n : Z) (p : UserProfile) :
  snd (run true ([], Text)
         (tmpl.page_open ++ rcdataEscaper (Name p) ++ tmpl.after_title
          ++ profile_header npub hexPubkey p
          ++ tmpl.total_label ++ htmlEscaper (itoa n) ++ tmpl.events_open
          ++ tmpl.gap12)) = Text
  /\ count_tag group_tag
       (tags (tmpl.page_open ++ rcdataEscaper (Name p) ++ tmpl.after_title
              ++ profile_header npub hexPubkey p
              ++ tmpl.total_label ++ htmlEscaper (itoa n) ++ tmpl.events_open
              ++ tmpl.gap12)) = O
  /\ div_walk 0
       (tags (tmpl.page_open ++ rcdataEscaper (Name p) ++ tmpl.after_title
              ++ profile_header npub hexPubkey p
              ++ tmpl.total_label ++ htmlEscaper (itoa n) ++ tmpl.events_open
              ++ tmpl.gap12)) = Some 2%nat.
Proof.
  unfold tags, profile_header.
  destruct (truth (Picture p)), (truth (Name p)), (truth (Nip05 p)),
    (truth (About p)); repeat split; crunch.
Qed.

Lemma tags_render_events (npub hexPubkey : string) (events : list Event)
    (profile : UserProfile) :
  tags (render_events npub hexPubkey events profile)
  = (tags (tmpl.page_open ++ rcdataEscaper (Name profile) ++ tmpl.after_title
           ++ profile_header npub hexPubkey profile
           ++ tmpl.total_label
           ++ htmlEscaper (itoa (Z.of_nat (List.length events)))
           ++ tmpl.events_open ++ tmpl.gap12)
     ++ match events with
        | [] => tags (tmpl.no_events ++ tmpl.gap12 ++ tmpl.page_close)
        | _ :: _ =>
            range_tags (-1) events
            ++ tags (tmpl.gap12 ++ tmpl.div_close ++ tmpl.page_close)
        end)%list.
Proof.
  rewrite render_events_split.
  destruct (run_page_top npub hexPubkey (Z.of_nat (List.length events)) profile)
    as [Htop _].
  rewrite (proj1 (tags_app _ _ Htop)). f_equal.
  destruct events as [|e events]; [reflexivity|].
  assert (snd (run true ([], Text) (range_events (-1) (e :: events))) = Text)
    as Hr by now rewrite run_range_events.
  rewrite (proj1 (tags_app _ _ Hr)). unfold tags at 1.
  now rewrite run_range_events.
Qed.

Lemma count_tag_event_tags (e : Event) : count_tag group_tag (event_tags e) = O.
Proof.
  unfold event_tags, attrEscaper.
  generalize (htmlReplacer (EventData e)). intros w.
  destruct (Kind e =? 3); vm_compute; reflexivity.
Qed.

Lemma count_tag_range_tags (events : list Event) (currentKind : Z) :
  count_tag group_tag (range_tags currentKind events)
  = kind_changes currentKind (map Kind events).
Proof.
  revert currentKind. induction events as [|e events IH]; intros currentKind.
  - reflexivity.
  - cbn [range_tags map kind_changes].
    rewrite !count_tag_app, count_tag_event_tags, IH. unfold group_tags.
    destruct (Kind e =? currentKind) eqn:E; cbn [negb].
    + apply Z.eqb_eq in E. now rewrite E.
    + destruct (currentKind =? -1); reflexivity.
Qed.

Lemma map_Kind_sorted (events : list Event) :
  StronglySorted kind_then_newest events ->
  StronglySorted Z.le (map Kind events).
Proof.
  induction 1 as [|e events Hs IH He]; cbn [map]; constructor; [exact IH|].
  apply Forall_map. eapply Forall_impl; [|exact He].
  intros b Hb. cbn. unfold kind_then_newest in Hb. lia.
Qed.

Lemma nodup_nonempty (k : Z) (ks : list Z) :
  In k ks -> (0 < List.length (nodup Z.eq_dec ks))%nat.
Proof.
  intros H. apply (nodup_In Z.eq_dec) in H.
  destruct (nodup Z.eq_dec ks); [contradiction|cbn; lia].
Qed.

Lemma kind_changes_sorted (ks : list Z) (prev : Z) :
  StronglySorted Z.le ks ->
  Forall (fun k => prev <= k) ks ->
  (kind_changes prev ks + (if in_dec Z.eq_dec prev ks then 1 else 0))%nat
  = List.length (nodup Z.eq_dec ks).
Proof.
  intros Hs. revert prev.
  induction Hs as [|k ks Hs IH Hk]; intros prev Hp.
  - reflexivity.
  - apply Forall_cons_iff in Hp as [Hpk Hp].
    cbn [kind_changes nodup]. specialize (IH k Hk).
    destruct (in_dec Z.eq_dec k ks) as [Hin|Hin].
    + pose proof (nodup_nonempty k ks Hin).
      destruct (Z.eqb_spec k prev) as [->|Hne].
      * destruct (in_dec Z.eq_dec prev (prev :: ks)) as [_|N];
          [lia|exfalso; apply N; now left].
      * destruct (in_dec Z.eq_dec prev (k :: ks)) as [[E|Hin']|_]; [congruence| |lia].
        rewrite Forall_forall in Hk. specialize (Hk prev Hin'). lia.
    + cbn [List.length].
      destruct (Z.eqb_spec k prev) as [->|Hne].
      * destruct (in_dec Z.eq_dec prev (prev :: ks)) as [_|N];
          [lia|exfalso; apply N; now left].
      * destruct (in_dec Z.eq_dec prev (k :: ks)) as [[E|Hin']|_]; [congruence| |lia].
        rewrite Forall_forall in Hk. specialize (Hk prev Hin'). lia.
Qed.

(** X5. The page opens one kind group at every place of the event sequence
    where the kind differs from the kind before it, the first event being
    compared with -1, and no payload can add or hide one.  For a sequence in
    the order of the archive query whose kinds are not negative this is one
    group for each kind that occurs. *)
Theorem X5_one_group_per_kind (npub hexPubkey : string) (events : list Event)
    (profile : UserProfile) :
  count_tag group_tag (tags (render_events npub hexPubkey events profile))
  = kind_changes (-1) (map Kind events)
  /\ (StronglySorted kind_then_newest events ->
      Forall (fun e => 0 <= Kind e) events ->
      count_tag group_tag (tags (render_events npub hexPubkey events profile))
      = List.length (nodup Z.eq_dec (map Kind events))).
Proof.
  assert (count_tag group_tag
            (tags (render_events npub hexPubkey events profile))
          = kind_changes (-1) (map Kind events)) as H.
  { rewrite tags_render_events, count_tag_app.
    destruct (run_page_top npub hexPubkey (Z.of_nat (List.length events))
                profile) as [_ [Htop _]].
    rewrite Htop. destruct events as [|e events]; [reflexivity|].
    rewrite count_tag_app, count_tag_range_tags. cbn [plus].
    change (count_tag group_tag
              (tags (tmpl.gap12 ++ tmpl.div_close ++ tmpl.page_close)))
      with O.
    now rewrite Nat.add_0_r. }
  split; [exact H|].
  intros Hs Hk. rewrite H.
  rewrite <- (kind_changes_sorted (map Kind events) (-1)).
  - destruct (in_dec Z.eq_dec (-1) (map Kind events)) as [Hin|_]; [|lia].
    apply in_map_iff in Hin as [e [He Hin]].
    rewrite Forall_forall in Hk. specialize (Hk e Hin). lia.
  - now apply map_Kind_sorted.
  - apply Forall_map. eapply Forall_impl; [|exact Hk]. cbn. lia.
Qed.

End PageGroups.

Section PageNesting.
Context {libs : GoLibs}.

Lemma div_walk_app (l1 l2 : list string) (d : nat) :
  div_walk d (l1 ++ l2)
  = match div_walk d l1 with
    | Some d' => div_walk d' l2
    | None => None
    end.
Proof.
  revert d. induction l1 as [|t l1 IH]; intros d; [reflexivity|].
  cbn [app div_walk]. destruct (is_open_div t); [apply IH|].
  destruct (String.eqb t "/div"); [|apply IH].
  destruct d; [reflexivity|apply IH].
Qed.

Lemma div_walk_event_tags (e : Event) (d : nat) :
  div_walk d (event_tags e) = Some d.
Proof.
  unfold event_tags, attrEscaper.
  generalize (htmlReplacer (EventData e)). intros w.
  destruct (Kind e =? 3); vm_compute; reflexivity.
Qed.

Lemma div_walk_group_tags (currentKind : Z) (e : Event) (d : nat) :
  Kind e <> -1 ->
  div_walk (d + open_groups currentKind) (group_tags currentKind e)
  = Some (S d).
Proof.
  intros He. unfold group_tags, open_groups.
  destruct (Z.eqb_spec (Kind e) currentKind) as [E|E]; cbn [negb].
  - destruct (Z.eqb_spec currentKind (-1)); [congruence|].
    cbn [div_walk]. f_equal. lia.
  - destruct (currentKind =? -1); cbn [negb].
    + rewrite Nat.add_0_r. reflexivity.
    + rewrite Nat.add_1_r. reflexivity.
Qed.

Lemma div_walk_range_tags (events : list Event) (currentKind : Z) (d : nat) :
  Forall (fun e => Kind e <> -1) events ->
  events <> [] ->
  div_walk (d + open_groups currentKind) (range_tags currentKind events)
  = Some (S d).
Proof.
  revert currentKind. induction events as [|e events IH];
    intros currentKind Hk Hne; [contradiction|].
  apply Forall_cons_iff in Hk as [He Hk].
  cbn [range_tags].
  rewrite div_walk_app, (div_walk_group_tags _ _ _ He).
  rewrite div_walk_app, div_walk_event_tags.
  destruct events as [|e' events]; [reflexivity|].
  assert (open_groups (if negb (Kind e =? currentKind) then Kind e
                       else currentKind) = 1%nat) as Hg.
  { unfold open_groups.
    destruct (Z.eqb_spec (Kind e) currentKind) as [E|E]; cbn [negb].
    - rewrite <- E. now destruct (Z.eqb_spec (Kind e) (-1)).
    - now destruct (Z.eqb_spec (Kind e) (-1)). }
  specialize (IH (if negb (Kind e =? currentKind) then Kind e else currentKind)
                Hk ltac:(discriminate)).
  rewrite Hg, Nat.add_1_r in IH. exact IH.
Qed.

(** X6. When no event has kind -1, every [div] the page opens is closed and
    no [</div>] stands without its [div], whatever the order of the events,
    the payloads and the profile: a group opened for one kind is closed
    before the next group opens, and the last one before the container
    ends. *)
Theorem X6_divs_balanced (npub hexPubkey : string) (events : list Event)
    (profile : UserProfile) :
  Forall (fun e => Kind e <> -1) events ->
  div_walk 0 (tags (render_events npub hexPubkey events profile)) = Some O.
Proof.
  intros Hk. rewrite tags_render_events, div_walk_app.
  destruct (run_page_top npub hexPubkey (Z.of_nat (List.length events))
              profile) as [_ [_ Htop]].
  rewrite Htop. destruct events as [|e events]; [reflexivity|].
  rewrite div_walk_app.
  change 2%nat with (2 + open_groups (-1))%nat.
  rewrite (div_walk_range_tags (e :: events) (-1) 2 Hk ltac:(discriminate)).
  reflexivity.
Qed.

End PageNesting.

Lemma X5_witness :
  count_tag group_tag
    (tags (render_events (libs := Example.example_libs)
             Example.npub Example.hex
             [Example.note_new; Example.note_old; Example.contacts]
             Example.alice))
  = 2%nat.
Proof.
  apply (proj2 (X5_one_group_per_kind (libs := Example.example_libs)
                  Example.npub Example.hex
                  [Example.note_new; Example.note_old; Example.contacts]
                  Example.alice)).
  - repeat first [solve [unfold kind_then_newest; cbn; lia] | constructor].
  - repeat first [solve [cbn; lia] | constructor].
Defined.

Lemma X6_witness :
  div_walk 0
    (tags (render_events (libs := Example.example_libs)
             Example.npub Example.hex
             [Example.contacts; Example.note_new; Example.note_old]
             Example.alice))
  = Some O.
Proof.
  apply (X6_divs_balanced (libs := Example.example_libs)).
  repeat constructor; discriminate.
Defined.

(** An event of kind -1 after an event of another kind opens a group that the
    next change of kind does not close. *)
Example kind_minus_one_leaves_a_div_open :
  div_walk 0
    (tags (render_events (libs := Example.example_libs)
             Example.npub Example.hex
             [mkEvent "a" Example.hex 3 (-2) "{}";
              mkEvent "b" Example.hex 2 (-1) "{}";
              mkEvent "c" Example.hex 1 0 "{}"]
             emptyProfile))
  = Some 1%nat.
Proof. vm_compute. reflexivity. Qed.

(** ** From the stored payload to the script and back *)

Section PayloadRoundTrip.

Lemma unescape_replacement (c : ascii) (repl rest : string) :
  Ascii.eqb c "000" = false ->
  htmlReplacement c = Some repl ->
  dom.unescape_from None (repl ++ rest)
  = option_map (String c) (dom.unescape_from None rest).
Proof.
  unfold htmlReplacement. intros H0. rewrite H0.
  repeat match goal with
         | |- context [Ascii.eqb c ?d] =>
             destruct (Ascii.eqb_spec c d) as [->|]
         end; intros H; try discriminate H;
    injection H as <-; reflexivity.
Qed.

Lemma unescape_plain (c : ascii) (rest : string) :
  htmlReplacement c = None ->
  dom.unescape_from None (String c rest)
  = option_map (String c) (dom.unescape_from None rest).
Proof.
  unfold htmlReplacement. intros H. cbn [dom.unescape_from].
  destruct (Ascii.eqb c "000"); [discriminate|].
  destruct (Ascii.eqb c dquote); [discriminate|].
  destruct (Ascii.eqb c "&"); [discriminate|reflexivity].
Qed.

Lemma unescape_htmlReplacer (s : string) :
  occurs "000" s = false ->
  dom.unescape (htmlReplacer s) = Some s.
Proof.
  unfold dom.unescape. induction s as [|c s IH]; [reflexivity|].
  cbn [occurs htmlReplacer]. intros H.
  apply orb_false_iff in H as [Hc Hs].
  destruct (htmlReplacement c) as [repl|] eqn:E.
  - rewrite (unescape_replacement c repl _ Hc E), (IH Hs). reflexivity.
  - rewrite (unescape_plain c _ E), (IH Hs). reflexivity.
Qed.

(** The escaper writes no CR of its own. *)
Lemma occurs_CR_htmlReplacer (s : string) :
  occurs dom.CR (htmlReplacer s) = occurs dom.CR s.
Proof.
  induction s as [|c s IH]; [reflexivity|].
  cbn [occurs htmlReplacer].
  destruct (htmlReplacement c) as [repl|] eqn:E.
  - rewrite occurs_app, IH. f_equal.
    unfold htmlReplacement in E.
    repeat match type of E with
           | (if Ascii.eqb c ?d then _ else _) = _ =>
               destruct (Ascii.eqb_spec c d) as [->|]
           end; try discriminate E; injection E as <-; reflexivity.
  - cbn [occurs]. now rewrite IH.
Qed.

Lemma normalize_newlines_without_CR (s : string) :
  occurs dom.CR s = false -> dom.normalize_newlines s = s.
Proof.
  induction s as [|c s IH]; [reflexivity|].
  cbn [occurs dom.normalize_newlines]. intros H.
  apply orb_false_iff in H as [Hc Hs].
  rewrite Hc. now rewrite (IH Hs).
Qed.

Lemma utf8_run_app (st : dom.utf8_state) (a b : string) :
  dom.utf8_run st (a ++ b) = dom.utf8_run (dom.utf8_run st a) b.
Proof. revert st. induction a as [|c a IH]; intros st; simpl; auto. Qed.

(** A replacement leaves the decoder where the replaced character does. *)
Lemma utf8_run_replacement (st : dom.utf8_state) (c : ascii) (repl : string) :
  htmlReplacement c = Some repl ->
  dom.utf8_run st repl = dom.utf8_step st c.
Proof.
  unfold htmlReplacement.
  repeat match goal with
         | |- context [Ascii.eqb c ?d] =>
             destruct (Ascii.eqb_spec c d) as [->|]
         end; intros H; try discriminate H;
    injection H as <-; destruct st; reflexivity.
Qed.

Lemma utf8_run_htmlReplacer (st : dom.utf8_state) (s : string) :
  dom.utf8_run st (htmlReplacer s) = dom.utf8_run st s.
Proof.
  revert st. induction s as [|c s IH]; intros st; [reflexivity|].
  cbn [htmlReplacer dom.utf8_run].
  destruct (htmlReplacement c) as [repl|] eqn:E.
  - now rewrite utf8_run_app, (utf8_run_replacement st c repl E), IH.
  - cbn [dom.utf8_run]. apply IH.
Qed.

Lemma utf8_run_Malformed (s : string) :
  dom.utf8_run dom.Malformed s = dom.Malformed.
Proof. induction s as [|c s IH]; [reflexivity|exact IH]. Qed.

Lemma valid_utf8_run (s : string) :
  dom.valid_utf8 s = true <-> dom.utf8_run dom.Start s = dom.Start.
Proof.
  unfold dom.valid_utf8.
  destruct (dom.utf8_run dom.Start s); split; congruence.
Qed.

(** The decoder hands on what is UTF-8 as it is. *)
Lemma decode_accepted (s : string) (st : dom.utf8_state) (pending : string) :
  (st = dom.Start -> pending = EmptyString) ->
  dom.utf8_run st s = dom.Start ->
  dom.decode st pending s = pending ++ s.
Proof.
  revert st pending. induction s as [|c s IH]; intros st pending Hp Hrun.
  - cbn in Hrun. subst st. now rewrite (Hp eq_refl).
  - cbn [dom.utf8_run] in Hrun. cbn [dom.decode]. revert Hrun.
    destruct (dom.utf8_step st c) eqn:E; intros Hrun;
      try (rewrite (IH _ (pending ++ String c EmptyString));
           [now rewrite append_assoc|discriminate|exact Hrun]).
    + now rewrite (IH dom.Start EmptyString).
    + rewrite utf8_run_Malformed in Hrun. discriminate.
Qed.

Lemma decode_valid (s : string) :
  dom.valid_utf8 s = true -> dom.decode dom.Start EmptyString s = s.
Proof.
  intros H. apply valid_utf8_run in H.
  now rewrite (decode_accepted s dom.Start EmptyString).
Qed.

(** What the browser reads from an escaped value is the value, when the
    value is UTF-8 text without NUL and without CR. *)
Lemma getAttribute_htmlReplacer (s : string) :
  dom.valid_utf8 s = true ->
  occurs "000" s = false ->
  occurs dom.CR s = false ->
  dom.getAttribute (htmlReplacer s) = Some s.
Proof.
  intros Hu H0 Hr. unfold dom.getAttribute.
  rewrite decode_valid
    by (apply valid_utf8_run; rewrite utf8_run_htmlReplacer;
        now apply valid_utf8_run).
  rewrite normalize_newlines_without_CR
    by now rewrite occurs_CR_htmlReplacer.
  now apply unescape_htmlReplacer.
Qed.

End PayloadRoundTrip.

(** ** The script *)

Section ScriptProperties.
Variable V : Type.
Import script.

Lemma get_set_property (object : Object V) (key : string) (v : V) :
  get_property (set_property object key v) key = Some v.
Proof.
  induction object as [|[k w] object IH]; cbn.
  - now rewrite String.eqb_refl.
  - destruct (String.eqb k key) eqn:E; cbn; now rewrite E.
Qed.

Lemma get_set_property_other (object : Object V) (key other : string) (v : V) :
  other <> key ->
  get_property (set_property object key v) other = get_property object other.
Proof.
  intros Hne. induction object as [|[k w] object IH]; cbn.
  - destruct (String.eqb_spec key other); [congruence|reflexivity].
  - destruct (String.eqb_spec k key) as [->|]; cbn.
    + destruct (String.eqb_spec key other); [congruence|reflexivity].
    + now rewrite IH.
Qed.

Lemma keys_set_property (object : Object V) (key : string) (v : V) :
  map fst (set_property object key v)
  = if existsb (String.eqb key) (map fst object) then map fst object
    else (map fst object ++ [key])%list.
Proof.
  induction object as [|[k w] object IH]; cbn; [reflexivity|].
  rewrite (String.eqb_sym key k).
  destruct (String.eqb k key); cbn; [reflexivity|].
  rewrite IH. now destruct (existsb (String.eqb key) (map fst object)).
Qed.

(** X7. The event handed to the signing extension is the parsed event with
    its timestamp replaced: [created_at] is the current time in whole
    seconds, every other property has the value it had, and the properties
    keep their order, [created_at] standing where it stood or, if the event
    had none, last. *)
Theorem X7_only_the_timestamp_changes (b : Browser V) (event : V) :
  get_property (updatedEvent b event) "created_at"
  = Some (number b (Date_now b / 1000))
  /\ (forall key, key <> "created_at" ->
        get_property (updatedEvent b event) key
        = get_property (own_properties b event) key)
  /\ map fst (updatedEvent b event)
     = if existsb (String.eqb "created_at") (map fst (own_properties b event))
       then map fst (own_properties b event)
       else (map fst (own_properties b event) ++ ["created_at"])%list.
Proof.
  unfold updatedEvent. split; [apply get_set_property|].
  split; [intros key H; now apply get_set_property_other|].
  apply keys_set_property.
Qed.

Lemma opened_app (t1 t2 : list (Call V)) :
  opened (t1 ++ t2) = (opened t1 ++ opened t2)%list.
Proof. induction t1 as [|[] t1 IH]; cbn; auto. now rewrite IH. Qed.

Lemma opened_sends (b : Browser V) (signed : V) (urls : list string) :
  opened (flat_map (sendEventToRelay b signed) urls) = urls.
Proof.
  induction urls as [|url urls IH]; [reflexivity|].
  cbn [flat_map]. rewrite opened_app, IH. unfold sendEventToRelay.
  now destruct (WebSocket b url).
Qed.

Lemma signing_requests_app (t1 t2 : list (Call V)) :
  signing_requests (t1 ++ t2)
  = (signing_requests t1 ++ signing_requests t2)%list.
Proof. induction t1 as [|[] t1 IH]; cbn; auto. now rewrite IH. Qed.

Lemma signing_requests_sends (b : Browser V) (signed : V)
    (urls : list string) :
  signing_requests (flat_map (sendEventToRelay b signed) urls) = [].
Proof.
  induction urls as [|url urls IH]; [reflexivity|].
  cbn [flat_map]. rewrite signing_requests_app, IH. unfold sendEventToRelay.
  now destruct (WebSocket b url).
Qed.

Lemma restoreEvent_calls (b : Browser V) (event : V) (urls : list string) :
  opened (restoreEvent b event urls)
  = match signedEvent b event with Some _ => urls | None => [] end
  /\ signing_requests (restoreEvent b event urls)
     = match nostr b with
       | Some _ => [updatedEvent b event]
       | None => []
       end.
Proof.
  unfold restoreEvent, signedEvent.
  destruct (nostr b) as [signEvent|]; [|now split].
  destruct (signEvent (updatedEvent b event)) as [signed|message];
    [|now split].
  cbn [opened signing_requests].
  rewrite opened_app, signing_requests_app, opened_sends,
    signing_requests_sends.
  cbn. now rewrite app_nil_r.
Qed.

(** X8. [restoreEvent] opens a socket to every relay of its list, once each
    and in the order of the list, exactly when the extension has returned a
    signed event; a constructor that throws for one relay does not keep the
    later ones from being tried.  Without an extension no signature is
    requested; with one it is requested once, for the updated event; and
    when there is no extension or signing fails, no socket is opened. *)
Theorem X8_sockets_only_after_signing (b : Browser V) (event : V)
    (urls : list string) :
  opened (restoreEvent b event urls)
  = match signedEvent b event with Some _ => urls | None => [] end
  /\ signing_requests (restoreEvent b event urls)
     = match nostr b with
       | Some _ => [updatedEvent b event]
       | None => []
       end.
Proof. apply restoreEvent_calls. Qed.

Lemma restoreEvent_sends_nothing (b : Browser V) (event : V)
    (urls : list string) :
  Forall no_send (restoreEvent b event urls).
Proof.
  unfold restoreEvent.
  destruct (nostr b) as [signEvent|]; [|repeat constructor].
  destruct (signEvent (updatedEvent b event)) as [signed|message];
    [|repeat constructor].
  constructor; [exact I|]. apply Forall_app. split; [|repeat constructor].
  apply Forall_flat_map, Forall_forall. intros url _. unfold sendEventToRelay.
  destruct (WebSocket b url); repeat constructor.
Qed.

(** X9. Whatever socket events the browser fires and in whatever order, a
    message goes out only after the extension has returned a signed event,
    only to a relay of the list whose socket was created, and it is always
    the request [["EVENT", signed]] for that signed event: the parsed event
    and the updated event before signing are never transmitted. *)
Theorem X9_only_the_signed_event_is_sent (b : Browser V) (event : V)
    (urls : list string) (schedule : list (nat * SocketEvent))
    (url data : string) :
  In (Send url data) (restoration b event urls schedule) ->
  exists signed text,
    signedEvent b event = Some signed
    /\ JSON_stringify b signed = Ok text
    /\ data = request text
    /\ In url urls
    /\ is_ok (WebSocket b url) = true.
Proof.
  unfold restoration. intros H. apply in_app_or in H as [H|H].
  - pose proof (restoreEvent_sends_nothing b event urls) as N.
    rewrite Forall_forall in N. destruct (N _ H).
  - destruct (signedEvent b event) as [signed|]; [|contradiction].
    apply in_flat_map in H as [[i ev] [_ H]]. unfold fire in H.
    cbn [fst snd] in H.
    destruct (nth_error urls i) as [relayUrl|] eqn:Hi; [|contradiction].
    destruct (is_ok (WebSocket b relayUrl)) eqn:Hw; [|contradiction].
    destruct ev as [| |detail]; cbn in H.
    + destruct (JSON_stringify b signed) as [text|] eqn:Hs; [|contradiction].
      destruct H as [H|[]]. injection H as <- <-.
      exists signed, text. repeat split; auto.
      eapply nth_error_In; eassumption.
    + destruct H as [H|[]]; discriminate.
    + destruct H as [H|[]]; discriminate.
Qed.

Lemma sent_to_app (url : string) (t1 t2 : list (Call V)) :
  sent_to url (t1 ++ t2) = (sent_to url t1 ++ sent_to url t2)%list.
Proof.
  induction t1 as [|[] t1 IH]; cbn; auto.
  destruct (String.eqb url0 url); cbn; now rewrite IH.
Qed.

Lemma sent_to_no_send (url : string) (t : list (Call V)) :
  Forall no_send t -> sent_to url t = [].
Proof.
  induction 1 as [|c t Hc Ht IH]; [reflexivity|].
  destruct c; cbn; auto. destruct Hc.
Qed.

(** X10. The relays do not wait for each other.  When the relays of the list
    are distinct, the messages that reach the [i]-th relay are one request
    for the signed event per [open] event of its own socket, whatever
    happens on the other sockets (errors, closes, constructors that threw)
    and however the events of the sockets interleave. *)
Theorem X10_relays_are_independent (b : Browser V) (event signed : V)
    (urls : list string) (schedule : list (nat * SocketEvent))
    (i : nat) (url text : string) :
  NoDup urls ->
  nth_error urls i = Some url ->
  signedEvent b event = Some signed ->
  is_ok (WebSocket b url) = true ->
  JSON_stringify b signed = Ok text ->
  sent_to url (restoration b event urls schedule)
  = repeat (request text) (opens_of i schedule).
Proof.
  intros Hnd Hi Hs Hw Ht. unfold restoration.
  rewrite sent_to_app, Hs,
    (sent_to_no_send _ _ (restoreEvent_sends_nothing b event urls)).
  cbn [app]. unfold opens_of.
  induction schedule as [|[j ev] schedule IH]; [reflexivity|].
  cbn [flat_map filter fst snd]. rewrite sent_to_app, IH.
  unfold fire. cbn [fst snd].
  destruct (Nat.eqb_spec j i) as [->|Hne].
  - rewrite Hi, Hw. destruct ev as [| |detail]; cbn.
    + rewrite Ht. cbn. now rewrite String.eqb_refl.
    + reflexivity.
    + reflexivity.
  - cbn [andb].
    destruct (nth_error urls j) as [other|] eqn:Hj; [|reflexivity].
    assert (other <> url) as Hou.
    { intros ->. apply Hne.
      apply (proj1 (NoDup_nth_error urls) Hnd).
      - apply nth_error_Some. congruence.
      - congruence. }
    destruct (is_ok (WebSocket b other)); [|reflexivity].
    destruct ev as [| |detail]; cbn.
    + destruct (JSON_stringify b signed); [|reflexivity]. cbn.
      destruct (String.eqb_spec other url); [contradiction|reflexivity].
    + reflexivity.
    + reflexivity.
Qed.

Lemma relays_in_question (url : string) :
  In url script.relays -> contains url question.
Proof.
  intros H. apply containsb_contains.
  repeat (destruct H as [<-|H]; [vm_compute; reflexivity|]).
  destruct H.
Qed.

(** X11. [showRestoreConfirmation] asks before it acts: a socket is opened
    only if the payload of the button parsed, the viewer confirmed the
    question, and the extension signed; and every relay a socket is opened to
    is named in the question the viewer confirmed. *)
Theorem X11_nothing_without_consent (b : Browser V) (button : Button)
    (url : string) :
  In url (opened (showRestoreConfirmation b button)) ->
  exists event signed,
    JSON_parse b (data_content button) = Ok event
    /\ confirm b question = true
    /\ signedEvent b event = Some signed
    /\ contains url question.
Proof.
  unfold showRestoreConfirmation.
  destruct (JSON_parse b (data_content button)) as [event|err] eqn:Hp;
    [|contradiction].
  cbn [opened]. destruct (confirm b question) eqn:Hc; [|contradiction].
  destruct (restoreEvent_calls b event script.relays) as [Ho _].
  rewrite Ho.
  destruct (signedEvent b event) as [signed|] eqn:Hs; [|contradiction].
  intros H. exists event, signed.
  split; [reflexivity|split; [reflexivity|split; [exact Hs|]]].
  now apply relays_in_question.
Qed.

End ScriptProperties.

(** ** What the status of a response tells *)

Section ResponseStatus.
Context {libs : GoLibs}.

Lemma handler_status (db : DB) (net : Net) (r : Request) :
  Status (value (npubHandler db net r))
  = match npubToHex (request_npub r) with
    | Err _ => StatusBadRequest
    | Ok hexPubkey =>
        match value (queryEventsByPubkey db hexPubkey) with
        | Err _ => StatusInternalServerError
        | Ok _ => StatusOK
        end
    end.
Proof.
  destruct (npubToHex (request_npub r)) as [hexPubkey|e] eqn:Hn.
  - destruct (value (queryEventsByPubkey db hexPubkey)) as [events|err] eqn:Hq.
    + destruct (fetch_loop_never_fails net (profile_filter hexPubkey) relays)
        as [profile Hf].
      now rewrite (handler_renders _ _ _ _ _ _ Hn Hq Hf).
    + now rewrite (handler_storage_error _ _ _ _ _ Hn Hq).
  - unfold npubHandler. now rewrite Hn.
Qed.

(** X14. The status of a response is 400 exactly when the identifier does
    not decode, 500 exactly when it decodes and the archive query returns an
    error, and 200 exactly when both succeed; it is the same whatever the
    relays do. *)
Theorem X14_status_tells_the_cause (db : DB) (net : Net) (r : Request) :
  (Status (value (npubHandler db net r)) = StatusBadRequest
   <-> is_ok (npubToHex (request_npub r)) = false)
  /\ (Status (value (npubHandler db net r)) = StatusInternalServerError
      <-> exists hexPubkey err,
            npubToHex (request_npub r) = Ok hexPubkey
            /\ value (queryEventsByPubkey db hexPubkey) = Err err)
  /\ (Status (value (npubHandler db net r)) = StatusOK
      <-> exists hexPubkey events,
            npubToHex (request_npub r) = Ok hexPubkey
            /\ value (queryEventsByPubkey db hexPubkey) = Ok events)
  /\ forall net',
       Status (value (npubHandler db net' r))
       = Status (value (npubHandler db net r)).
Proof.
  rewrite handler_status.
  split; [|split; [|split]].
  - destruct (npubToHex (request_npub r)) as [k|e]; cbn [is_ok].
    + destruct (value (queryEventsByPubkey db k)); split; discriminate.
    + split; reflexivity.
  - destruct (npubToHex (request_npub r)) as [k|e].
    + destruct (value (queryEventsByPubkey db k)) as [evs|err] eqn:Hq; split.
      * discriminate.
      * intros [k' [err [Hk Hq']]]. injection Hk as <-. congruence.
      * intros _. now exists k, err.
      * reflexivity.
    + split; [discriminate|]. intros [k [err [Hk _]]]. discriminate.
  - destruct (npubToHex (request_npub r)) as [k|e].
    + destruct (value (queryEventsByPubkey db k)) as [evs|err] eqn:Hq; split.
      * intros _. now exists k, evs.
      * reflexivity.
      * discriminate.
      * intros [k' [evs [Hk Hq']]]. injection Hk as <-. congruence.
    + split; [discriminate|]. intros [k [evs [Hk _]]]. discriminate.
  - intros net'. now rewrite handler_status.
Qed.

End ResponseStatus.

(** ** The page and the script together *)

Section PageAndScript.
Context {libs : GoLibs}.


End PageAndScript.

(** ** The landing page *)

(** X13. [homeHandler] answers 404 for every path but the root.  For the
    root it answers 200 with a page that holds one form and one input: the
    form sends to [/npub/] by GET and the input is named [q], the parameter
    [npubHandler] reads when the path carries no identifier. *)
Theorem X13_landing_form_feeds_the_handler (r : Request) :
  (URL_Path r <> "/" -> homeHandler r = http_NotFound)
  /\ (URL_Path r = "/" ->
      Status (homeHandler r) = StatusOK
      /\ filter is_form (tags (Body (homeHandler r))) = [form_tag]
      /\ filter is_input (tags (Body (homeHandler r))) = [input_tag]
      /\ forall value,
           request_npub (mkRequest "/npub/" [("q", value)])
           = value).
Proof.
  unfold homeHandler. split.
  - intros H. destruct (String.eqb_spec (URL_Path r) "/"); [contradiction|].
    reflexivity.
  - intros ->. cbn [negb String.eqb Status Body].
    repeat split; vm_compute; reflexivity.
Qed.

(** ** Worked examples of the further properties *)

Lemma X1_witness :
  npubHandler (libs := Example.example_libs)
    (postgres Example.table) Example.offline
    (mkRequest "/npub/npub1qqqqqq" [])
  = (http_Error "Invalid npub format" StatusBadRequest, []).
Proof.
  apply (proj2 (X1_only_npub_entities_pass (libs := Example.example_libs)
                  "npub1qqqqqq"));
    reflexivity.
Defined.

Lemma X2_witness :
  npubHandler (libs := Example.example_libs)
    (mkDB (fun _ _ =>
             Ok {| rows_fetched :=
                     [Scans Example.note_new;
                      ScanFails "sql: Scan error on column index 2";
                      Scans Example.contacts];
                   rows_Err := None |}))
    Example.offline (mkRequest ("/npub/" ++ Example.npub) [])
  = (http_Error "Database error: sql: Scan error on column index 2"
       StatusInternalServerError,
     [DbQuery query [Example.hex]]).
Proof.
  apply (X2_storage_error_stops_the_request (libs := Example.example_libs));
    [reflexivity|].
  right.
  exists {| rows_fetched :=
              [Scans Example.note_new;
               ScanFails "sql: Scan error on column index 2";
               Scans Example.contacts];
            rows_Err := None |}, [Example.note_new], [Scans Example.contacts].
  split; reflexivity.
Defined.

Lemma X3_witness :
  npubHandler (libs := Example.example_libs)
    (postgres Example.table) Example.offline
    (mkRequest "/npub/" [("lang", "en"); ("q", Example.npub)])
  = npubHandler (libs := Example.example_libs)
      (postgres Example.table) Example.offline
      (mkRequest ("/npub/" ++ Example.npub) []).
Proof.
  apply (X3_form_and_path_agree (libs := Example.example_libs)
           (postgres Example.table) Example.offline Example.npub
           [("lang", "en")] [] []).
  - discriminate.
  - repeat constructor. discriminate.
Defined.

Lemma X7_witness :
  script.get_property
    (script.updatedEvent ScriptExample.browser ScriptExample.contact_list)
    "kind"
  = Some (ScriptExample.JNum 3).
Proof.
  rewrite (proj1 (proj2 (X7_only_the_timestamp_changes ScriptExample.Json
                           ScriptExample.browser ScriptExample.contact_list))
             "kind" ltac:(discriminate)).
  reflexivity.
Defined.

Lemma X9_witness :
  exists signed text,
    script.signedEvent ScriptExample.browser ScriptExample.contact_list
    = Some signed
    /\ script.JSON_stringify ScriptExample.browser signed = Ok text
    /\ script.request (ScriptExample.stringify
                         ScriptExample.signed_contact_list)
       = script.request text
    /\ In "wss://relay.damus.io" script.relays
    /\ is_ok (script.WebSocket ScriptExample.browser "wss://relay.damus.io")
       = true.
Proof.
  apply (X9_only_the_signed_event_is_sent ScriptExample.Json
           ScriptExample.browser ScriptExample.contact_list script.relays
           [(2%nat, script.Open); (0%nat, script.Open)]).
  apply in_or_app. right. left. reflexivity.
Defined.

Lemma X10_witness :
  script.sent_to "wss://relay.damus.io"
    (script.restoration ScriptExample.browser ScriptExample.contact_list
       script.relays
       [(2%nat, script.Open); (1%nat, script.Error "refused");
        (0%nat, script.Open); (1%nat, script.Close); (0%nat, script.Close)])
  = [script.request (ScriptExample.stringify
                       ScriptExample.signed_contact_list)].
Proof.
  refine (X10_relays_are_independent ScriptExample.Json ScriptExample.browser
            ScriptExample.contact_list ScriptExample.signed_contact_list
            script.relays
            [(2%nat, script.Open); (1%nat, script.Error "refused");
             (0%nat, script.Open); (1%nat, script.Close);
             (0%nat, script.Close)]
            0%nat "wss://relay.damus.io"
            (ScriptExample.stringify ScriptExample.signed_contact_list)
            _ eq_refl eq_refl eq_refl eq_refl).
  unfold script.relays. repeat constructor; simpl; intuition discriminate.
Defined.

Lemma X11_witness :
  exists event signed,
    script.JSON_parse ScriptExample.browser ScriptExample.contact_list_json
    = Ok event
    /\ script.confirm ScriptExample.browser script.question = true
    /\ script.signedEvent ScriptExample.browser event = Some signed
    /\ contains "wss://nostr.bitcoiner.social" script.question.
Proof.
  apply (X11_nothing_without_consent ScriptExample.Json ScriptExample.browser
           (script.mkButton ScriptExample.contact_list_json "Restore")
           "wss://nostr.bitcoiner.social").
  vm_compute. tauto.
Defined.


Lemma X13_witness :
  homeHandler (mkRequest "/favicon.ico" []) = http_NotFound
  /\ filter is_form (tags (Body (homeHandler (mkRequest "/" []))))
     = [form_tag].
Proof.
  split.
  - apply (proj1 (X13_landing_form_feeds_the_handler
                    (mkRequest "/favicon.ico" []))).
    discriminate.
  - apply (proj2 (X13_landing_form_feeds_the_handler (mkRequest "/" []))).
    reflexivity.
Defined.

Example unescape_references :
  dom.unescape "a &lt; b &amp;&amp; c &#43; d" = Some "a < b && c + d"
  /\ dom.unescape "&copy; 2025" = None
  /\ dom.unescape "AT&T" = None.
Proof. repeat split. Qed.

(** The three conditions of X12 are needed.  A payload with CR LF or a lone
    CR reaches the script with LF in their place, and a NUL or a byte that
    is no UTF-8 as U+FFFD. *)
Example getAttribute_changes_newlines :
  dom.getAttribute
    (attrEscaper (String "a" (String dom.CR (String dom.LF
                    (String "b" (String dom.CR (String "c" EmptyString)))))))
  = Some (String "a" (String dom.LF
            (String "b" (String dom.LF (String "c" EmptyString)))))
  /\ dom.getAttribute (attrEscaper (String "a" (String "000" EmptyString)))
     = Some ("a" ++ dom.replacement_character)
  /\ dom.getAttribute (attrEscaper (String "a" (String "255" EmptyString)))
     = Some ("a" ++ dom.replacement_character)
  /\ dom.getAttribute
       (attrEscaper (String "226" (String "130" (String "b" EmptyString))))
     = Some (dom.replacement_character ++ "b")
  /\ dom.getAttribute (attrEscaper (String "195" (String "169" EmptyString)))
     = Some (String "195" (String "169" EmptyString)).
Proof. repeat split. Qed.

Example restoration_in_the_example_browser :
  script.restoreEvent ScriptExample.browser ScriptExample.contact_list
    ["wss://relay.nostr.band"; "wss://relay.damus.io"]
  = [script.SignEvent
       [("kind", ScriptExample.JNum 3);
        ("created_at", ScriptExample.JNum 1700000123);
        ("content", ScriptExample.JStr "")];
     script.NewWebSocket "wss://relay.nostr.band";
     script.ConsoleError "Failed to connect to wss://relay.nostr.band:"
       "SecurityError";
     script.NewWebSocket "wss://relay.damus.io";
     script.Alert
       "Event restoration initiated. Check your Nostr client for status."].
Proof. reflexivity. Qed.
